(** * RenderTextureImplFBO: per-context framebuffer objects and their teardown

    A shallow embedding of [src/SFML/Graphics/RenderTextureImplFBO.cpp].

    The file keeps one framebuffer object (FBO) per (render texture, OpenGL
    context) pair.  An FBO can only be deleted while its context is current,
    so the file keeps two process-wide registries: the set of the live
    owners' maps ([frameBuffers]) and the set of entries left behind by
    destroyed owners ([staleFrameBuffers]).

    Layout of the development:
    - [Containers]: [std::set] and [std::map] as key-ordered lists, walked in
      the order the C++ iterators walk them;
    - the driver and the context subsystem, as a log of the calls issued
      plus the framebuffer bindings of every context;
    - the member functions [create], [createFrameBuffer], [activate], ... as
      functions of the object and the calling thread's environment;
    - the registries, [contextDestroyCallback], constructor and destructor
      over a store of objects addressed by pointer;
    - a machine whose steps are the calls a client and the context
      subsystem can make, and the properties of all of the above. *)

From stdpp Require Import gmap list.
From Stdlib Require Import NArith Lia.

Local Open Scope N_scope.

(** ** Base types *)

(** [sf::Uint64] context identifier; [0] is "no active context". *)
Abbreviation ContextId := N (only parsing).
(** [unsigned int] / [GLuint] object name; [0] is "not created". *)
Abbreviation Handle := N (only parsing).
(** Address of a [RenderTextureImplFBO] (equivalently of its
    [m_frameBuffers] member, which is what [frameBuffers] stores). *)
Abbreviation ptr := N (only parsing).

(** ** Containers *)

Module Containers.

(** [std::set<T>]: elements kept in increasing order, no duplicates. *)
Section OrderedSet.
Context {A : Type} (cmp : A -> A -> comparison).

Fixpoint set_insert (x : A) (s : list A) : list A :=
  match s with
  | [] => [x]
  | y :: s' =>
      match cmp x y with
      | Lt => x :: s
      | Eq => s
      | Gt => y :: set_insert x s'
      end
  end.

Fixpoint set_erase (x : A) (s : list A) : list A :=
  match s with
  | [] => []
  | y :: s' =>
      match cmp x y with
      | Eq => s'
      | _ => y :: set_erase x s'
      end
  end.
End OrderedSet.

(** Order of [std::pair<Uint64, unsigned int>]: lexicographic. *)
Definition pair_compare (a b : N * N) : comparison :=
  match a.1 ?= b.1 with
  | Eq => a.2 ?= b.2
  | c => c
  end.

(** [std::map<Uint64, unsigned int>]: entries in increasing key order. *)
Definition fbmap : Type := list (N * N).

(** [std::map::insert]: an entry whose key is already present is left as it
    is and the new value is dropped. *)
Fixpoint map_insert (k v : N) (m : fbmap) : fbmap :=
  match m with
  | [] => [(k, v)]
  | (k', v') :: m' =>
      match k ?= k' with
      | Lt => (k, v) :: m
      | Eq => m
      | Gt => (k', v') :: map_insert k v m'
      end
  end.

(** [std::map::find]. *)
Fixpoint map_find (k : N) (m : fbmap) : option N :=
  match m with
  | [] => None
  | (k', v') :: m' => if k' =? k then Some v' else map_find k m'
  end.

(** Representation invariant of [std::map]: keys strictly increasing. *)
Fixpoint keys_above (lo : N) (m : fbmap) : Prop :=
  match m with
  | [] => True
  | (k, _) :: m' => lo < k /\ keys_above k m'
  end.

Definition map_ok (m : fbmap) : Prop :=
  match m with
  | [] => True
  | (k, _) :: m' => keys_above k m'
  end.

End Containers.
Import Containers.

(** ** The driver and the context subsystem *)

Inductive Target := GL_FRAMEBUFFER | GL_READ_FRAMEBUFFER | GL_DRAW_FRAMEBUFFER.

Inductive Query :=
  GL_READ_FRAMEBUFFER_BINDING | GL_DRAW_FRAMEBUFFER_BINDING | GL_FRAMEBUFFER_BINDING.

(** The driver entry points the file calls (the [GLEXT_] prefix dropped).
    Values returned by the driver are recorded with the call. *)
Inductive GLCall :=
| GenRenderbuffers (depth : Handle)
| BindRenderbuffer (depth : Handle)
| RenderbufferStorage (width height : N)
| DeleteRenderbuffers (depth : Handle)
| GetIntegerv (q : Query) (value : Handle)
| GenFramebuffers (frameBuffer : Handle)
| BindFramebuffer (t : Target) (frameBuffer : Handle)
| FramebufferTexture2D (textureId : N)
| FramebufferRenderbuffer (depth : Handle)
| CheckFramebufferStatus (complete : bool)
| DeleteFramebuffers (frameBuffer : Handle).

(** The four messages written to [err()]. *)
Inductive ErrMsg :=
| FailedDepthBuffer
| FailedFrameBufferObject
| FailedLinkTexture
| FailedBackupContext.

(** What the file does to the outside world.  A driver call is recorded
    together with the context that is current on the calling thread;
    framebuffer objects are not shared between contexts, so that pair is
    what identifies the object a call is about.  The [glCheck] wrapper
    only reports driver errors and is left out. *)
Inductive Event :=
| GL (current : ContextId) (call : GLCall)
| NewContext (id : ContextId)
| SetActive (id : ContextId) (ok : bool)
| DeleteContext (id : ContextId)
| RegisterContextDestroyCallback
| Err (msg : ErrMsg).

Global Instance Target_eq_dec : EqDecision Target.
Proof. solve_decision. Defined.
Global Instance Query_eq_dec : EqDecision Query.
Proof. solve_decision. Defined.
Global Instance ErrMsg_eq_dec : EqDecision ErrMsg.
Proof. solve_decision. Defined.
Global Instance GLCall_eq_dec : EqDecision GLCall.
Proof. solve_decision. Defined.
Global Instance Event_eq_dec : EqDecision Event.
Proof. solve_decision. Defined.

(** Framebuffer bindings of one context. *)
Record Bindings := mkBindings { readFramebuffer : Handle; drawFramebuffer : Handle }.

Global Instance Bindings_eq_dec : EqDecision Bindings.
Proof. solve_decision. Defined.

(** The environment of a call: the context current on the calling thread,
    and the framebuffer bindings of every context. *)
Record Env := mkEnv {
  activeContextId : ContextId;
  glBindings : gmap N Bindings
}.

Definition bindingsOf (c : ContextId) (e : Env) : Bindings :=
  default (mkBindings 0 0) (glBindings e !! c).

Definition setBindings (b : Bindings) (e : Env) : Env :=
  mkEnv (activeContextId e) (<[activeContextId e := b]> (glBindings e)).

Definition setActiveContextId (c : ContextId) (e : Env) : Env :=
  mkEnv c (glBindings e).

(** What the outside world answers during one call of a member function:
    the identifier of a context made by [new Context], whether
    [setActive(true)] succeeds, and the values the driver returns. *)
Record Responses := mkResponses {
  newContextId : ContextId;
  setActiveOk : bool;
  genRenderbuffer : Handle;
  genFramebuffer : Handle;
  statusComplete : bool
}.

(** Calls thread the environment and append to the log of events. *)
Definition M (A : Type) : Type := Env -> A * Env * list Event.

Global Instance M_ret : MRet M := fun A a e => (a, e, []).
Global Instance M_bind : MBind M := fun A B k m e =>
  let '(a, e1, l1) := m e in
  let '(b, e2, l2) := k a e1 in
  (b, e2, l1 ++ l2).

Definition gl (call : GLCall) : M unit :=
  fun e => (tt, e, [GL (activeContextId e) call]).

Definition emit (ev : Event) : M unit := fun e => (tt, e, [ev]).

(** Modelled from the spec: [Context::getActiveContextId()] of the context
    subsystem, "0 if none". *)
Definition getActiveContextId : M ContextId :=
  fun e => (activeContextId e, e, []).

(** Modelled from the spec: [new Context] of the context subsystem; the
    new context is known by its identifier. *)
Definition newContext (id : ContextId) : M ContextId :=
  _ ← emit (NewContext id); mret id.

(** Modelled from the spec: [Context::setActive(true)] of the context
    subsystem, which makes the context current when it succeeds and leaves
    the thread as it was when it fails. *)
Definition setActive (id : ContextId) (ok : bool) : M bool :=
  fun e => (ok, if ok then setActiveContextId id e else e, [SetActive id ok]).

Definition readBinding (q : Query) (b : Bindings) : Handle :=
  match q with
  | GL_READ_FRAMEBUFFER_BINDING => readFramebuffer b
  | GL_DRAW_FRAMEBUFFER_BINDING => drawFramebuffer b
  | GL_FRAMEBUFFER_BINDING => drawFramebuffer b
  end.

Definition glGetIntegerv (q : Query) : M Handle :=
  fun e =>
    let v := readBinding q (bindingsOf (activeContextId e) e) in
    (v, e, [GL (activeContextId e) (GetIntegerv q v)]).

Definition bindTarget (t : Target) (h : Handle) (b : Bindings) : Bindings :=
  match t with
  | GL_FRAMEBUFFER => mkBindings h h
  | GL_READ_FRAMEBUFFER => mkBindings h (drawFramebuffer b)
  | GL_DRAW_FRAMEBUFFER => mkBindings (readFramebuffer b) h
  end.

Definition glBindFramebuffer (t : Target) (h : Handle) : M unit :=
  fun e =>
    (tt, setBindings (bindTarget t h (bindingsOf (activeContextId e) e)) e,
     [GL (activeContextId e) (BindFramebuffer t h)]).

(** Driver behaviour: deleting a framebuffer that is bound reverts that
    binding to [0]. *)
Definition unbindDeleted (h : Handle) (b : Bindings) : Bindings :=
  mkBindings (if readFramebuffer b =? h then 0 else readFramebuffer b)
             (if drawFramebuffer b =? h then 0 else drawFramebuffer b).

Definition glDeleteFramebuffers (h : Handle) : M unit :=
  fun e =>
    (tt, setBindings (unbindDeleted h (bindingsOf (activeContextId e) e)) e,
     [GL (activeContextId e) (DeleteFramebuffers h)]).

(** ** The object *)

Record RenderTextureImplFBO := mkFBO {
  m_context : option ContextId;   (* Context*: NULL, or the backup context *)
  m_depthBuffer : Handle;
  m_textureId : N;
  m_frameBuffers : fbmap
}.

Definition set_context (c : option ContextId) (this : RenderTextureImplFBO) :=
  mkFBO c (m_depthBuffer this) (m_textureId this) (m_frameBuffers this).
Definition set_depthBuffer (d : Handle) (this : RenderTextureImplFBO) :=
  mkFBO (m_context this) d (m_textureId this) (m_frameBuffers this).
Definition set_textureId (t : N) (this : RenderTextureImplFBO) :=
  mkFBO (m_context this) (m_depthBuffer this) t (m_frameBuffers this).
Definition set_frameBuffers (m : fbmap) (this : RenderTextureImplFBO) :=
  mkFBO (m_context this) (m_depthBuffer this) (m_textureId this) m.

(** ** Member functions *)

(** [RenderTextureImplFBO::unbind]. *)
Definition unbind : M unit := glBindFramebuffer GL_FRAMEBUFFER 0.

(** [RenderTextureImplFBO::createFrameBuffer]. *)
Definition createFrameBuffer (r : Responses) (this : RenderTextureImplFBO)
  : M (bool * RenderTextureImplFBO) :=
  let frameBuffer := genFramebuffer r in
  _ ← gl (GenFramebuffers frameBuffer);
  if frameBuffer =? 0 then
    _ ← emit (Err FailedFrameBufferObject);
    mret (false, this)
  else
    _ ← glBindFramebuffer GL_FRAMEBUFFER frameBuffer;
    _ ← gl (FramebufferTexture2D (m_textureId this));
    _ ← (if m_depthBuffer this =? 0 then mret tt
         else gl (FramebufferRenderbuffer (m_depthBuffer this)));
    _ ← gl (CheckFramebufferStatus (statusComplete r));
    if negb (statusComplete r) then
      _ ← glBindFramebuffer GL_FRAMEBUFFER 0;
      _ ← glDeleteFramebuffers frameBuffer;
      _ ← emit (Err FailedLinkTexture);
      mret (false, this)
    else
      contextId ← getActiveContextId;
      mret (true, set_frameBuffers
                    (map_insert contextId frameBuffer (m_frameBuffers this)) this).

(** [RenderTextureImplFBO::create].  [opengl_es] is the compile-time switch
    [SFML_OPENGL_ES].  The renderbuffer calls run under a
    [TransientContextLock], which lends the thread a context for their
    duration when it has none. *)
Definition create (opengl_es : bool) (width height textureId : N)
    (depthBuffer : bool) (r : Responses) (this : RenderTextureImplFBO)
  : M (bool * RenderTextureImplFBO) :=
  let depth := genRenderbuffer r in
  let this1 := if depthBuffer then set_depthBuffer depth this else this in
  _ ← (if depthBuffer then gl (GenRenderbuffers depth) else mret tt);
  if depthBuffer && (depth =? 0) then
    _ ← emit (Err FailedDepthBuffer);
    mret (false, this1)
  else
    _ ← (if depthBuffer then
           _ ← gl (BindRenderbuffer depth);
           gl (RenderbufferStorage width height)
         else mret tt);
    let this2 := set_textureId textureId this1 in
    contextId ← getActiveContextId;
    if contextId =? 0 then mret (true, this2)
    else if opengl_es then
      frameBuffer ← glGetIntegerv GL_FRAMEBUFFER_BINDING;
      '(ok, this3) ← createFrameBuffer r this2;
      if ok : bool then
        _ ← glBindFramebuffer GL_FRAMEBUFFER frameBuffer;
        mret (true, this3)
      else mret (false, this3)
    else
      readFramebuffer ← glGetIntegerv GL_READ_FRAMEBUFFER_BINDING;
      drawFramebuffer ← glGetIntegerv GL_DRAW_FRAMEBUFFER_BINDING;
      '(ok, this3) ← createFrameBuffer r this2;
      if ok : bool then
        _ ← glBindFramebuffer GL_READ_FRAMEBUFFER readFramebuffer;
        _ ← glBindFramebuffer GL_DRAW_FRAMEBUFFER drawFramebuffer;
        mret (true, this3)
      else mret (false, this3).

(** Lines 300-316 of [activate]: look the current context up in the map,
    bind what is found, create otherwise. *)
Definition lookupOrCreate (contextId : ContextId) (r : Responses)
    (this : RenderTextureImplFBO) : M (bool * RenderTextureImplFBO) :=
  match map_find contextId (m_frameBuffers this) with
  | Some frameBuffer =>
      _ ← glBindFramebuffer GL_FRAMEBUFFER frameBuffer;
      mret (true, this)
  | None => createFrameBuffer r this
  end.

(** [RenderTextureImplFBO::activate]. *)
Definition activate (active : bool) (r : Responses) (this : RenderTextureImplFBO)
  : M (bool * RenderTextureImplFBO) :=
  if negb active then
    _ ← glBindFramebuffer GL_FRAMEBUFFER 0;
    mret (true, this)
  else
    contextId ← getActiveContextId;
    if contextId =? 0 then
      backup ← (match m_context this with
                | None => newContext (newContextId r)
                | Some c => mret c
                end);
      let this1 := set_context (Some backup) this in
      _ ← setActive backup (setActiveOk r);
      contextId ← getActiveContextId;
      if contextId =? 0 then
        _ ← emit (Err FailedBackupContext);
        mret (false, this1)
      else lookupOrCreate contextId r this1
    else lookupOrCreate contextId r this.

(** [RenderTextureImplFBO::updateTexture]: nothing to do. *)
Definition updateTexture (textureId : N) (this : RenderTextureImplFBO)
  : M RenderTextureImplFBO := mret this.

(** ** The registries and the store of objects *)

(** The two file-level sets, the objects they point into, and the
    environment of the running thread.  The [sf::Mutex] that guards the sets
    serialises the calls; the model runs them one at a time. *)
Record World := mkWorld {
  env : Env;
  frameBuffers : list ptr;                          (* std::set<std::map<..>*> *)
  staleFrameBuffers : list (ContextId * Handle);    (* std::set<std::pair<..>> *)
  heap : gmap N RenderTextureImplFBO
}.

Definition set_env (e : Env) (w : World) : World :=
  mkWorld e (frameBuffers w) (staleFrameBuffers w) (heap w).
Definition set_heap (h : gmap N RenderTextureImplFBO) (w : World) : World :=
  mkWorld (env w) (frameBuffers w) (staleFrameBuffers w) h.

(** Inner loop of [contextDestroyCallback] (lines 66-78): walk one map up to
    the first entry keyed by [contextId], hand its framebuffer out and erase
    the entry; the [break] leaves the rest of the map unvisited. *)
Fixpoint eraseContext (contextId : ContextId) (m : fbmap) : option Handle * fbmap :=
  match m with
  | [] => (None, [])
  | (k, frameBuffer) :: m' =>
      if k =? contextId then (Some frameBuffer, m')
      else
        let '(found, m'') := eraseContext contextId m' in
        (found, (k, frameBuffer) :: m'')
  end.

(** Outer loop (lines 64-79) over the registered maps.  The maps are reached
    through the pointers, so the objects in the store change.  A registered
    pointer always has its object behind it (the destructor unregisters
    first); the model passes over one that has not. *)
Fixpoint destroyActive (contextId : ContextId) (ps : list ptr)
    (h : gmap N RenderTextureImplFBO) (e : Env)
  : gmap N RenderTextureImplFBO * Env * list Event :=
  match ps with
  | [] => (h, e, [])
  | p :: ps' =>
      match h !! p with
      | Some o =>
          match eraseContext contextId (m_frameBuffers o) with
          | (Some frameBuffer, m') =>
              let '(_, e1, l1) := glDeleteFramebuffers frameBuffer e in
              let '(h2, e2, l2) :=
                destroyActive contextId ps' (<[p := set_frameBuffers m' o]> h) e1 in
              (h2, e2, l1 ++ l2)
          | (None, _) => destroyActive contextId ps' h e
          end
      | None => destroyActive contextId ps' h e
      end
  end.

(** Second loop (lines 82-89) over the stale set: every entry keyed by
    [contextId] is deleted in the driver; the set itself is not written. *)
Fixpoint destroyStale (contextId : ContextId) (s : list (ContextId * Handle))
  : M unit :=
  match s with
  | [] => mret tt
  | (k, frameBuffer) :: s' =>
      _ ← (if k =? contextId then glDeleteFramebuffers frameBuffer else mret tt);
      destroyStale contextId s'
  end.

(** [contextDestroyCallback]; the [void*] argument is not used. *)
Definition contextDestroyCallback (w : World) : World * list Event :=
  let contextId := activeContextId (env w) in
  let '(h1, e1, l1) := destroyActive contextId (frameBuffers w) (heap w) (env w) in
  let '(_, e2, l2) := destroyStale contextId (staleFrameBuffers w) e1 in
  (mkWorld e2 (frameBuffers w) (staleFrameBuffers w) h1, l1 ++ l2).

(** [RenderTextureImplFBO::RenderTextureImplFBO], for the object placed at
    address [this]. *)
Definition constructor (this : ptr) (w : World) : World * list Event :=
  (mkWorld (env w)
           (set_insert N.compare this (frameBuffers w))
           (staleFrameBuffers w)
           (<[this := mkFBO None 0 0 []]> (heap w)),
   [RegisterContextDestroyCallback]).

(** Lines 130-131 of the destructor. *)
Fixpoint moveToStale (m : fbmap) (s : list (ContextId * Handle))
  : list (ContextId * Handle) :=
  match m with
  | [] => s
  | (k, frameBuffer) :: m' =>
      moveToStale m' (set_insert pair_compare (k, frameBuffer) s)
  end.

(** [RenderTextureImplFBO::~RenderTextureImplFBO], for the object [o] at
    address [this].  [delete m_context] hands the backup context back to
    the context subsystem; what that subsystem does when it tears a context
    down is the step [ContextDestroyed] of the machine below. *)
Definition destructor (this : ptr) (o : RenderTextureImplFBO) (w : World)
  : World * list Event :=
  let fbs := set_erase N.compare this (frameBuffers w) in
  let '(_, e1, l1) :=
    (if m_depthBuffer o =? 0 then mret tt
     else gl (DeleteRenderbuffers (m_depthBuffer o))) (env w) in
  let stale := moveToStale (m_frameBuffers o) (staleFrameBuffers w) in
  let '(w2, l2) := contextDestroyCallback (mkWorld e1 fbs stale (heap w)) in
  let l3 := match m_context o with
            | Some c => [DeleteContext c]
            | None => []
            end in
  (w2, l1 ++ l2 ++ l3).

(** ** The machine *)

(** What can happen to the file's state: the calls of a client on an
    object, and the two things the context subsystem does. *)
Inductive Op :=
| Construct (this : ptr)
| Destruct (this : ptr)
| Create (this : ptr) (opengl_es : bool) (width height textureId : N)
         (depthBuffer : bool) (r : Responses)
| Activate (this : ptr) (active : bool) (r : Responses)
| UpdateTexture (this : ptr) (textureId : N)
| Unbind
| MakeCurrent (c : ContextId)
| ContextDestroyed (c : ContextId).

(** Run a member function on the object at [this] and store the object
    back. *)
Definition call {A} (this : ptr) (f : RenderTextureImplFBO -> M (A * RenderTextureImplFBO))
    (w : World) : option (World * list Event) :=
  match heap w !! this with
  | Some o =>
      let '((_, o'), e', l) := f o (env w) in
      Some (mkWorld e' (frameBuffers w) (staleFrameBuffers w) (<[this := o']> (heap w)), l)
  | None => None
  end.

(** Modelled from the spec: the context subsystem invokes the registered
    callback "exactly once per context teardown, with that context
    current"; afterwards the thread is back on the context it had, unless
    that was the one torn down. *)
Definition contextTeardown (c : ContextId) (w : World) : World * list Event :=
  let saved := activeContextId (env w) in
  let '(w1, l) := contextDestroyCallback (set_env (setActiveContextId c (env w)) w) in
  (set_env (setActiveContextId (if saved =? c then 0 else saved) (env w1)) w1, l).

(** One step; [None] when the call is not one a program can make (a member
    function of an object that does not exist, an object constructed over
    a live one). *)
Definition step (op : Op) (w : World) : option (World * list Event) :=
  match op with
  | Construct this =>
      match heap w !! this with
      | None => Some (constructor this w)
      | Some _ => None
      end
  | Destruct this =>
      match heap w !! this with
      | Some o =>
          let '(w', l) := destructor this o w in
          Some (set_heap (delete this (heap w')) w', l)
      | None => None
      end
  | Create this es width height textureId depthBuffer r =>
      call this (create es width height textureId depthBuffer r) w
  | Activate this active r => call this (activate active r) w
  | UpdateTexture this textureId =>
      call this (fun o => o' ← updateTexture textureId o; mret (tt, o')) w
  | Unbind =>
      let '(_, e', l) := unbind (env w) in Some (set_env e' w, l)
  | MakeCurrent c => Some (set_env (setActiveContextId c (env w)) w, [])
  | ContextDestroyed c => Some (contextTeardown c w)
  end.

(** A run keeps, for every step, the operation and the events it caused. *)
Fixpoint run (ops : list Op) (w : World) : option (World * list (Op * list Event)) :=
  match ops with
  | [] => Some (w, [])
  | op :: ops' =>
      match step op w with
      | Some (w1, l) =>
          match run ops' w1 with
          | Some (w2, t) => Some (w2, (op, l) :: t)
          | None => None
          end
      | None => None
      end
  end.

Definition events (t : list (Op * list Event)) : list Event := concat (snd <$> t).

(** Program start: no context current, nothing bound, both sets empty. *)
Definition World_init : World := mkWorld (mkEnv 0 ∅) [] [] ∅.

Definition World_ok (w : World) : Prop :=
  forall p o, heap w !! p = Some o -> map_ok (m_frameBuffers o).

(** ** Vocabulary of the properties *)

(** What the callback may do to an object: entries leave its map, entries
    keyed by another context stay, nothing else is written. *)
Definition erased (c : ContextId) (o o' : RenderTextureImplFBO) : Prop :=
  m_context o' = m_context o /\
  m_depthBuffer o' = m_depthBuffer o /\
  m_textureId o' = m_textureId o /\
  (forall e, e ∈ m_frameBuffers o' -> e ∈ m_frameBuffers o) /\
  (forall k v, k <> c -> (k, v) ∈ m_frameBuffers o -> (k, v) ∈ m_frameBuffers o') /\
  (map_ok (m_frameBuffers o) -> map_ok (m_frameBuffers o')).

Definition attachments (a : ContextId) (this : RenderTextureImplFBO) : list Event :=
  GL a (FramebufferTexture2D (m_textureId this)) ::
  (if m_depthBuffer this =? 0 then []
   else [GL a (FramebufferRenderbuffer (m_depthBuffer this))]).

(** [create] reaches the incompleteness exit of [createFrameBuffer]: a
    context is current, the depth buffer (if asked for) was allocated, the
    framebuffer was allocated, and the driver reports it incomplete. *)
Definition incompletePath (depthBuffer : bool) (r : Responses) (e : Env) : bool :=
  negb (activeContextId e =? 0) &&
  negb (depthBuffer && (genRenderbuffer r =? 0)) &&
  negb (genFramebuffer r =? 0) &&
  negb (statusComplete r).

(** The framebuffer bindings of every context are what they were. *)
Definition preservesBindings (e e' : Env) : Prop :=
  forall c, bindingsOf c e' = bindingsOf c e.

(** The backup context an object ends up with when it is activated with no
    context current: the one it has, or a new one. *)
Definition backupContext (r : Responses) (this : RenderTextureImplFBO) : ContextId :=
  match m_context this with
  | Some c => c
  | None => newContextId r
  end.

Definition allocation (r : Responses) (this : RenderTextureImplFBO) : list Event :=
  match m_context this with
  | Some _ => []
  | None => [NewContext (newContextId r)]
  end.

Definition isNewContext (ev : Event) : bool :=
  match ev with NewContext _ => true | _ => false end.

(** Number of backup contexts allocated in a log. *)
Definition allocations (l : list Event) : nat := length (filter isNewContext l).

(** How an object may differ after a step: it keeps a backup context it
    has, and its map keeps the representation invariant. *)
Definition evolves (o o' : RenderTextureImplFBO) : Prop :=
  (forall b, m_context o = Some b -> m_context o' = Some b) /\
  (map_ok (m_frameBuffers o) -> map_ok (m_frameBuffers o')).

(** Backup contexts allocated by the object at [this] along a run. *)
Fixpoint contextsCreatedBy (this : ptr) (t : list (Op * list Event)) : nat :=
  match t with
  | [] => 0%nat
  | (Activate p _ _, l) :: t' =>
      Nat.add (if p =? this then allocations l else 0%nat) (contextsCreatedBy this t')
  | _ :: t' => contextsCreatedBy this t'
  end.

(** How many backup contexts the object at [this] may still allocate. *)
Definition budget (this : ptr) (w : World) : nat :=
  match heap w !! this with
  | Some o => match m_context o with Some _ => 0%nat | None => 1%nat end
  | None => 1%nat
  end.

(** ** Sample data *)

(** A driver that allocates framebuffer 5 and reports it complete, and one
    that reports it incomplete. *)
Definition driver_ok : Responses := mkResponses 9 true 3 5 true.
Definition driver_incomplete : Responses := mkResponses 9 true 3 5 false.

(** An object as the constructor leaves it. *)
Definition fresh : RenderTextureImplFBO := mkFBO None 0 0 [].

(** An object at address 100 is created (64 by 64, texture 7, no depth
    buffer) and activated under context 1, destroyed while context 1 is
    current, and then context 1 is torn down. *)
Definition destroy_then_teardown : list Op :=
  [Construct 100; MakeCurrent 1;
   Create 100 false 64 64 7 false driver_ok; Activate 100 true driver_ok;
   Destruct 100; ContextDestroyed 1].

(** The same object is destroyed while context 2 is current; then context
    1 is made current. *)
Definition orphan_then_current : list Op :=
  [Construct 100; MakeCurrent 1;
   Create 100 false 64 64 7 false driver_ok; Activate 100 true driver_ok;
   MakeCurrent 2; Destruct 100; MakeCurrent 1].

(** The object at address 100 holds framebuffers for contexts 1 and 2, the
    one at 200 for context 1; the stale set holds one entry for each of the
    contexts 1 and 3; context 1 is current. *)
Definition two_owners : World :=
  mkWorld (mkEnv 1 ∅) [100; 200] [(1, 7); (3, 8)]
          (<[100 := mkFBO None 0 7 [(1, 5); (2, 6)]]>
             (<[200 := mkFBO None 0 9 [(1, 4)]]> ∅)).


(** Context 1 current with framebuffer 3 bound for reading and 4 for
    drawing. *)
Definition env_bound : Env := mkEnv 1 (<[1 := mkBindings 3 4]> ∅).

(** ** Vocabulary of the further properties *)

(** The set of registered maps names the live objects, each once. *)
Definition registry_ok (w : World) : Prop :=
  NoDup (frameBuffers w) /\
  forall p, p ∈ frameBuffers w <-> is_Some (heap w !! p).

(** Generation and deletion of framebuffers, the two calls that begin and
    end the life of one. *)
Definition framebufferLife (ev : Event) : bool :=
  match ev with
  | GL _ (GenFramebuffers _) | GL _ (DeleteFramebuffers _) => true
  | _ => false
  end.

(** A log that neither generates nor deletes a framebuffer. *)
Definition neutral (l : list Event) : bool := forallb (fun ev => negb (framebufferLife ev)) l.

(** The framebuffers, with their contexts, generated up to the end of a
    log, [seen] being those generated before it. *)
Fixpoint addGenerated (seen : list (ContextId * Handle)) (l : list Event)
  : list (ContextId * Handle) :=
  match l with
  | [] => seen
  | GL k (GenFramebuffers fb) :: l' => addGenerated ((k, fb) :: seen) l'
  | _ :: l' => addGenerated seen l'
  end.

(** Reads a log from its start: every deletion of a framebuffer is of one
    generated before it under the same context. *)
Fixpoint deletesGenerated (seen : list (ContextId * Handle)) (l : list Event) : bool :=
  match l with
  | [] => true
  | GL k (GenFramebuffers fb) :: l' => deletesGenerated ((k, fb) :: seen) l'
  | GL k (DeleteFramebuffers fb) :: l' =>
      bool_decide ((k, fb) ∈ seen) && deletesGenerated seen l'
  | _ :: l' => deletesGenerated seen l'
  end.

(** Every entry the file holds, in a map or in the stale set, is of a
    framebuffer in [seen]. *)
Definition tracked (seen : list (ContextId * Handle)) (w : World) : Prop :=
  (forall p o x, heap w !! p = Some o -> x ∈ m_frameBuffers o -> x ∈ seen) /\
  (forall x, x ∈ staleFrameBuffers w -> x ∈ seen).

(** What a member function does to the lives of framebuffers, [m] and [m']
    being the object's map before and after and [l] the log: it deletes
    only what was generated before, and every entry it leaves in the map
    was there or has been generated. *)
Definition keepsLifetimes (m m' : fbmap) (l : list Event) : Prop :=
  forall seen,
    deletesGenerated seen l = true /\
    forall x, x ∈ m' -> x ∈ m \/ x ∈ addGenerated seen l.

Definition isDeleteRenderbuffers (ev : Event) : bool :=
  match ev with GL _ (DeleteRenderbuffers _) => true | _ => false end.

Definition isDeleteContext (ev : Event) : bool :=
  match ev with DeleteContext _ => true | _ => false end.

(** Context 2 current; the registered object at 100 holds a framebuffer
    for context 1 only, and the stale set an entry for context 3. *)
Definition quiet : World :=
  mkWorld (mkEnv 2 ∅) [100] [(3, 8)] (<[100 := mkFBO None 0 7 [(1, 5)]]> ∅).

(** An object with a depth buffer, a backup context and one framebuffer. *)
Definition equipped : RenderTextureImplFBO := mkFBO (Some 9) 3 7 [(9, 5)].

(** * Properties *)

#[local] Set Warnings "-clear-no-such-hyp".

(** ** Containers *)

Section ContainerFacts.

Lemma pair_compare_eq a b : pair_compare a b = Eq -> a = b.
Proof.
  destruct a as [a1 a2], b as [b1 b2]; unfold pair_compare; simpl.
  destruct (a1 ?= b1) eqn:E1; try discriminate.
  intros E2. apply N.compare_eq_iff in E1, E2. congruence.
Qed.

Lemma elem_of_set_insert {A} (cmp : A -> A -> comparison) x z s :
  (forall a b, cmp a b = Eq -> a = b) ->
  z ∈ set_insert cmp x s <-> z = x \/ z ∈ s.
Proof.
  intros Hcmp. induction s as [|y s IH]; simpl.
  - set_solver.
  - destruct (cmp x y) eqn:E.
    + apply Hcmp in E. subst. set_solver.
    + set_solver.
    + rewrite elem_of_cons, IH. set_solver.
Qed.

Lemma elem_of_moveToStale e m s : e ∈ moveToStale m s <-> e ∈ m \/ e ∈ s.
Proof.
  revert s. induction m as [|[k fb] m IH]; intros s; simpl.
  - set_solver.
  - rewrite IH, elem_of_set_insert by apply pair_compare_eq. set_solver.
Qed.

Lemma keys_above_weaken lo lo' m : lo' <= lo -> keys_above lo m -> keys_above lo' m.
Proof. destruct m as [|[k v] m]; simpl; [done|]. intros ? [? ?]. split; [lia|done]. Qed.

Lemma keys_above_map_ok lo m : keys_above lo m -> map_ok m.
Proof. destruct m as [|[k v] m]; simpl; [done|]. tauto. Qed.

Lemma keys_above_elem lo m k v : keys_above lo m -> (k, v) ∈ m -> lo < k.
Proof.
  revert lo. induction m as [|[k' v'] m IH]; intros lo; simpl.
  - set_solver.
  - intros [Hlo Hm]. rewrite elem_of_cons. intros [[= -> ->]|Hin]; [done|].
    specialize (IH _ Hm Hin). lia.
Qed.

Lemma map_ok_tail x m : map_ok (x :: m) -> map_ok m.
Proof. destruct x. simpl. apply keys_above_map_ok. Qed.

Lemma map_find_elem k v m : map_find k m = Some v -> (k, v) ∈ m.
Proof.
  induction m as [|[k' v'] m IH]; simpl; [done|].
  destruct (N.eqb_spec k' k) as [->|Hne].
  - intros [= ->]. set_solver.
  - set_solver.
Qed.

(** Under the representation invariant an entry is in the map exactly when
    [find] returns it. *)
Lemma elem_map_find k v m : map_ok m -> (k, v) ∈ m <-> map_find k m = Some v.
Proof.
  intros Hok. split; [|apply map_find_elem].
  induction m as [|[k' v'] m IH]; simpl.
  - set_solver.
  - rewrite elem_of_cons. intros [[= -> ->]|Hin].
    + by rewrite N.eqb_refl.
    + simpl in Hok. pose proof (keys_above_elem _ _ _ _ Hok Hin).
      destruct (N.eqb_spec k' k); [lia|].
      apply IH; [by eapply keys_above_map_ok|done].
Qed.

Lemma map_ok_unique m k v1 v2 : map_ok m -> (k, v1) ∈ m -> (k, v2) ∈ m -> v1 = v2.
Proof.
  intros Hok H1 H2. apply (elem_map_find _ _ _ Hok) in H1, H2. congruence.
Qed.

Lemma keys_above_insert lo k v m :
  lo < k -> keys_above lo m -> keys_above lo (map_insert k v m).
Proof.
  revert lo. induction m as [|[k' v'] m IH]; intros lo Hlo; simpl.
  - done.
  - intros [Hk' Hm]. destruct (N.compare_spec k k').
    + done.
    + simpl. auto.
    + simpl. split; [done|]. by apply IH.
Qed.

Lemma map_insert_ok k v m : map_ok m -> map_ok (map_insert k v m).
Proof.
  destruct m as [|[k' v'] m]; simpl; [done|].
  intros Hm. destruct (N.compare_spec k k'); simpl.
  - done.
  - done.
  - by apply keys_above_insert.
Qed.

Lemma map_find_insert k v m :
  map_find k m = None -> map_find k (map_insert k v m) = Some v.
Proof.
  induction m as [|[k' v'] m IH]; simpl.
  - by rewrite N.eqb_refl.
  - destruct (N.eqb_spec k' k) as [->|Hne]; [done|]. intros Hm.
    destruct (N.compare_spec k k'); simpl.
    + congruence.
    + by rewrite N.eqb_refl.
    + destruct (N.eqb_spec k' k); [congruence|]. by apply IH.
Qed.

Lemma elem_of_map_insert k v m e :
  e ∈ map_insert k v m -> e = (k, v) \/ e ∈ m.
Proof.
  induction m as [|[k' v'] m IH]; simpl.
  - set_solver.
  - destruct (k ?= k'); set_solver.
Qed.

(** The inner loop of the callback hands out what [find] would. *)
Lemma eraseContext_found c m : (eraseContext c m).1 = map_find c m.
Proof.
  induction m as [|[k v] m IH]; simpl; [done|].
  destruct (k =? c); [done|].
  destruct (eraseContext c m). simpl in *. done.
Qed.

Lemma eraseContext_elem c m e : e ∈ (eraseContext c m).2 -> e ∈ m.
Proof.
  induction m as [|[k v] m IH]; simpl; [done|].
  destruct (k =? c); [set_solver|].
  destruct (eraseContext c m). simpl in *. set_solver.
Qed.

Lemma eraseContext_other c m k v : k <> c -> (k, v) ∈ m -> (k, v) ∈ (eraseContext c m).2.
Proof.
  intros Hne. induction m as [|[k' v'] m IH]; simpl; [done|].
  destruct (N.eqb_spec k' c) as [->|Hne'].
  - rewrite elem_of_cons. intros [[= ? ?]|?]; [congruence|done].
  - destruct (eraseContext c m). simpl in *. set_solver.
Qed.

Lemma eraseContext_keys_above lo c m :
  keys_above lo m -> keys_above lo (eraseContext c m).2.
Proof.
  revert lo. induction m as [|[k v] m IH]; intros lo; simpl; [done|].
  intros [Hlo Hm]. destruct (k =? c); simpl.
  - eapply keys_above_weaken; [|done]. lia.
  - specialize (IH _ Hm). destruct (eraseContext c m). simpl in *. done.
Qed.

Lemma eraseContext_ok c m : map_ok m -> map_ok (eraseContext c m).2.
Proof.
  destruct m as [|[k v] m]; simpl; [done|].
  intros Hm. destruct (k =? c); simpl.
  - by eapply keys_above_map_ok.
  - pose proof (eraseContext_keys_above _ c _ Hm).
    destruct (eraseContext c m). simpl in *. done.
Qed.

(** With unique keys, nothing keyed by the context is left after the
    early exit of the inner loop. *)
Lemma eraseContext_gone c m : map_ok m -> map_find c (eraseContext c m).2 = None.
Proof.
  induction m as [|[k v] m IH]; simpl; [done|].
  intros Hm. destruct (N.eqb_spec k c) as [->|Hne]; simpl.
  - destruct (map_find c m) eqn:E; [|done].
    apply map_find_elem in E. pose proof (keys_above_elem _ _ _ _ Hm E). lia.
  - specialize (IH (keys_above_map_ok _ _ Hm)).
    destruct (eraseContext c m). simpl in *.
    destruct (N.eqb_spec k c); [done|]. done.
Qed.

End ContainerFacts.

(** ** The destruction callback *)

Section Callback.

Lemma erased_refl c o : erased c o o.
Proof. by repeat split. Qed.

Lemma erased_trans c o1 o2 o3 : erased c o1 o2 -> erased c o2 o3 -> erased c o1 o3.
Proof.
  intros (?&?&?&?&?&?) (?&?&?&?&?&?).
  repeat split; try congruence; eauto.
Qed.

Lemma erased_eraseContext c o :
  erased c o (set_frameBuffers (eraseContext c (m_frameBuffers o)).2 o).
Proof.
  repeat split; simpl.
  - apply eraseContext_elem.
  - intros. by apply eraseContext_other.
  - apply eraseContext_ok.
Qed.

Lemma destroyStale_active c s e :
  activeContextId (destroyStale c s e).1.2 = activeContextId e.
Proof.
  revert e. induction s as [|[k fb] s IH]; intros e; simpl; [done|].
  unfold mbind, M_bind. destruct (k =? c); simpl.
  - specialize (IH (setBindings (unbindDeleted fb (bindingsOf (activeContextId e) e)) e)).
    destruct (destroyStale c s _) as [[[] e2] l2]. simpl in *. done.
  - specialize (IH e). destruct (destroyStale c s e) as [[[] e2] l2]. done.
Qed.

(** The calls of the second loop: one deletion per stale entry keyed by the
    context, in the order of the set. *)
Lemma destroyStale_log c s e :
  (destroyStale c s e).2 =
  (fun kh => GL (activeContextId e) (DeleteFramebuffers kh.2))
    <$> filter (fun kh => kh.1 = c) s.
Proof.
  revert e. induction s as [|[k fb] s IH]; intros e; simpl; [done|].
  unfold mbind, M_bind. destruct (N.eqb_spec k c) as [->|Hne]; simpl.
  - specialize (IH (setBindings (unbindDeleted fb (bindingsOf (activeContextId e) e)) e)).
    destruct (destroyStale c s _) as [[[] e2] l2]. simpl in *.
    rewrite filter_cons_True by done. simpl. by rewrite IH.
  - specialize (IH e). destruct (destroyStale c s e) as [[[] e2] l2]. simpl in *.
    rewrite filter_cons_False by done. done.
Qed.

Lemma destroyActive_active c ps h e :
  activeContextId (destroyActive c ps h e).1.2 = activeContextId e.
Proof.
  revert h e. induction ps as [|p ps IH]; intros h e; simpl; [done|].
  destruct (h !! p) as [o|]; [|apply IH].
  destruct (eraseContext c (m_frameBuffers o)) as [[fb|] m']; [|apply IH].
  specialize (IH (<[p:=set_frameBuffers m' o]> h)
                 (setBindings (unbindDeleted fb (bindingsOf (activeContextId e) e)) e)).
  destruct (destroyActive c ps _ _) as [[h2 e2] l2]. simpl in *. done.
Qed.

(** Every call of the first loop deletes an entry that a registered map
    holds under the context. *)
Lemma destroyActive_sound c ps h e ev :
  ev ∈ (destroyActive c ps h e).2 ->
  exists p o fb, p ∈ ps /\ h !! p = Some o /\ (c, fb) ∈ m_frameBuffers o /\
                 ev = GL (activeContextId e) (DeleteFramebuffers fb).
Proof.
  revert h e. induction ps as [|p ps IH]; intros h e; simpl; [set_solver|].
  destruct (h !! p) as [o|] eqn:Hp.
  2:{ intros H. destruct (IH _ _ H) as (q&o'&fb&?&?&?&?). exists q, o', fb. set_solver. }
  pose proof (eraseContext_found c (m_frameBuffers o)) as Hf.
  pose proof (eraseContext_elem c (m_frameBuffers o)) as Hel.
  destruct (eraseContext c (m_frameBuffers o)) as [[fb|] m']; simpl in *.
  2:{ intros H. destruct (IH _ _ H) as (q&o'&fb&?&?&?&?). exists q, o', fb. set_solver. }
  specialize (IH (<[p:=set_frameBuffers m' o]> h)
                 (setBindings (unbindDeleted fb (bindingsOf (activeContextId e) e)) e)).
  destruct (destroyActive c ps _ _) as [[h2 e2] l2]. simpl in *.
  rewrite elem_of_cons. intros [->|H].
  - exists p, o, fb. split_and!; [set_solver|done| |done].
    apply map_find_elem. done.
  - destruct (IH H) as (q&o'&fb'&Hq&Hh&Hin&->).
    destruct (decide (q = p)) as [->|Hne].
    + rewrite lookup_insert_eq in Hh. injection Hh as <-. simpl in Hin.
      exists p, o, fb'. split_and!; [set_solver|done|by apply Hel|done].
    + rewrite lookup_insert_ne in Hh by done.
      exists q, o', fb'. split_and!; [set_solver|done..].
Qed.

(** Every entry that a registered map holds under the context is deleted
    by the first loop; this is where the unique keys of [std::map] matter,
    the inner loop stopping at the first match. *)
Lemma destroyActive_complete c ps h e p o fb :
  p ∈ ps -> h !! p = Some o -> map_ok (m_frameBuffers o) ->
  (c, fb) ∈ m_frameBuffers o ->
  GL (activeContextId e) (DeleteFramebuffers fb) ∈ (destroyActive c ps h e).2.
Proof.
  revert h e. induction ps as [|p0 ps IH]; intros h e Hin Hp Hok Hfb; [set_solver|].
  simpl. apply (elem_map_find _ _ _ Hok) in Hfb as Hfind.
  destruct (decide (p = p0)) as [<-|Hne].
  - rewrite Hp. pose proof (eraseContext_found c (m_frameBuffers o)) as Hf.
    destruct (eraseContext c (m_frameBuffers o)) as [[fb0|] m']; simpl in *; [|congruence].
    destruct (destroyActive c ps _ _) as [[h2 e2] l2]. simpl.
    assert (fb0 = fb) as -> by congruence. set_solver.
  - assert (p ∈ ps) as Hin' by set_solver.
    destruct (h !! p0) as [o0|] eqn:Hp0; [|by eapply IH].
    destruct (eraseContext c (m_frameBuffers o0)) as [[fb0|] m']; [|by eapply IH].
    specialize (IH (<[p0:=set_frameBuffers m' o0]> h)
                   (setBindings (unbindDeleted fb0 (bindingsOf (activeContextId e) e)) e) Hin').
    rewrite lookup_insert_ne in IH by done. specialize (IH Hp Hok Hfb).
    destruct (destroyActive c ps _ _) as [[h2 e2] l2]. simpl in *. set_solver.
Qed.

(** The store after the first loop: the same objects, each [erased]. *)
Lemma destroyActive_heap c ps h e p :
  match h !! p with
  | Some o => exists o', (destroyActive c ps h e).1.1 !! p = Some o' /\ erased c o o'
  | None => (destroyActive c ps h e).1.1 !! p = None
  end.
Proof.
  revert h e. induction ps as [|p0 ps IH]; intros h e; simpl.
  - destruct (h !! p) as [o|]; [|done]. exists o. split; [done|apply erased_refl].
  - destruct (h !! p0) as [o0|] eqn:Hp0; [|apply IH].
    pose proof (erased_eraseContext c o0) as Her.
    destruct (eraseContext c (m_frameBuffers o0)) as [[fb0|] m']; [|apply IH].
    simpl in Her.
    specialize (IH (<[p0:=set_frameBuffers m' o0]> h)
                   (setBindings (unbindDeleted fb0 (bindingsOf (activeContextId e) e)) e)).
    destruct (destroyActive c ps _ _) as [[h2 e2] l2]. simpl in *.
    destruct (decide (p = p0)) as [->|Hne].
    + rewrite lookup_insert_eq in IH. rewrite Hp0.
      destruct IH as (o'&?&?). exists o'. split; [done|]. by eapply erased_trans.
    + rewrite lookup_insert_ne in IH by done. done.
Qed.

End Callback.

Section CallbackFacts.

Lemma contextDestroyCallback_unfold w :
  contextDestroyCallback w =
  (mkWorld (destroyStale (activeContextId (env w)) (staleFrameBuffers w)
              (destroyActive (activeContextId (env w)) (frameBuffers w) (heap w) (env w)).1.2).1.2
           (frameBuffers w) (staleFrameBuffers w)
           (destroyActive (activeContextId (env w)) (frameBuffers w) (heap w) (env w)).1.1,
   (destroyActive (activeContextId (env w)) (frameBuffers w) (heap w) (env w)).2 ++
   (destroyStale (activeContextId (env w)) (staleFrameBuffers w)
      (destroyActive (activeContextId (env w)) (frameBuffers w) (heap w) (env w)).1.2).2).
Proof.
  unfold contextDestroyCallback.
  destruct (destroyActive _ _ _ _) as [[h1 e1] l1]. simpl.
  destruct (destroyStale _ _ _) as [[[] e2] l2]. done.
Qed.

(** The callback never writes either registry, nor changes the context. *)
Lemma contextDestroyCallback_frame w :
  frameBuffers (contextDestroyCallback w).1 = frameBuffers w /\
  staleFrameBuffers (contextDestroyCallback w).1 = staleFrameBuffers w /\
  activeContextId (env (contextDestroyCallback w).1) = activeContextId (env w).
Proof.
  rewrite contextDestroyCallback_unfold. simpl. split_and!; [done..|].
  by rewrite destroyStale_active, destroyActive_active.
Qed.

Lemma contextDestroyCallback_heap w p :
  match heap w !! p with
  | Some o => exists o', heap (contextDestroyCallback w).1 !! p = Some o' /\
                         erased (activeContextId (env w)) o o'
  | None => heap (contextDestroyCallback w).1 !! p = None
  end.
Proof. rewrite contextDestroyCallback_unfold. simpl. apply destroyActive_heap. Qed.

Lemma elem_of_stale_log (c a : N) (s : list (N * N)) (ev : Event) :
  ev ∈ (fun kh : N * N => GL a (DeleteFramebuffers kh.2))
         <$> filter (fun kh : N * N => kh.1 = c) s
  <-> exists fb, (c, fb) ∈ s /\ ev = GL a (DeleteFramebuffers fb).
Proof.
  rewrite list_elem_of_fmap. split.
  - intros ([k fb]&->&Hin). apply list_elem_of_filter in Hin as [Hk Hin].
    simpl in *. subst. eauto.
  - intros (fb&Hin&->). exists (c, fb). split; [done|].
    apply list_elem_of_filter. done.
Qed.

Lemma contextDestroyCallback_sound w ev :
  ev ∈ (contextDestroyCallback w).2 ->
  exists fb, ev = GL (activeContextId (env w)) (DeleteFramebuffers fb) /\
    ((exists p o, p ∈ frameBuffers w /\ heap w !! p = Some o /\
                  (activeContextId (env w), fb) ∈ m_frameBuffers o) \/
     (activeContextId (env w), fb) ∈ staleFrameBuffers w).
Proof.
  rewrite contextDestroyCallback_unfold. simpl. rewrite elem_of_app. intros [H|H].
  - apply destroyActive_sound in H as (p&o&fb&?&?&?&->). eauto 10.
  - rewrite destroyStale_log, destroyActive_active in H.
    apply elem_of_stale_log in H as (fb&?&->). eauto.
Qed.

Lemma contextDestroyCallback_live w p o fb :
  p ∈ frameBuffers w -> heap w !! p = Some o -> map_ok (m_frameBuffers o) ->
  (activeContextId (env w), fb) ∈ m_frameBuffers o ->
  GL (activeContextId (env w)) (DeleteFramebuffers fb) ∈ (contextDestroyCallback w).2.
Proof.
  intros. rewrite contextDestroyCallback_unfold. simpl. apply elem_of_app. left.
  by eapply destroyActive_complete.
Qed.

Lemma contextDestroyCallback_stale w fb :
  (activeContextId (env w), fb) ∈ staleFrameBuffers w ->
  GL (activeContextId (env w)) (DeleteFramebuffers fb) ∈ (contextDestroyCallback w).2.
Proof.
  intros. rewrite contextDestroyCallback_unfold. simpl. apply elem_of_app. right.
  rewrite destroyStale_log, destroyActive_active. apply elem_of_stale_log. eauto.
Qed.

End CallbackFacts.

(** ** Member functions *)

Ltac unfold_m :=
  unfold mbind, M_bind, mret, M_ret, gl, emit, getActiveContextId, newContext,
    setActive, glGetIntegerv, glBindFramebuffer, glDeleteFramebuffers in *.

Section Environment.

Lemma bindingsOf_setBindings b e :
  bindingsOf (activeContextId e) (setBindings b e) = b.
Proof. unfold bindingsOf, setBindings. simpl. rewrite lookup_insert_eq. reflexivity. Qed.

Lemma bindingsOf_setBindings_ne c b e :
  c <> activeContextId e -> bindingsOf c (setBindings b e) = bindingsOf c e.
Proof.
  intros. unfold bindingsOf, setBindings. simpl. rewrite lookup_insert_ne; done.
Qed.

Lemma bindingsOf_setBindings_id c e :
  bindingsOf c (setBindings (bindingsOf (activeContextId e) e) e) = bindingsOf c e.
Proof.
  destruct (decide (c = activeContextId e)) as [->|Hne].
  - apply bindingsOf_setBindings.
  - by apply bindingsOf_setBindings_ne.
Qed.

Lemma unbindDeleted_unbound h : unbindDeleted h (mkBindings 0 0) = mkBindings 0 0.
Proof. by destruct h. Qed.

End Environment.

Section CreateFrameBuffer.

(** The three ways out of [createFrameBuffer]. *)
Lemma createFrameBuffer_alloc_failure r this e :
  genFramebuffer r = 0 ->
  createFrameBuffer r this e =
  ((false, this), e,
   [GL (activeContextId e) (GenFramebuffers 0); Err FailedFrameBufferObject]).
Proof. intros H. unfold createFrameBuffer. unfold_m. simpl. by rewrite H. Qed.

Lemma createFrameBuffer_success r this e :
  genFramebuffer r <> 0 -> statusComplete r = true ->
  createFrameBuffer r this e =
  ((true, set_frameBuffers
            (map_insert (activeContextId e) (genFramebuffer r) (m_frameBuffers this)) this),
   setBindings (mkBindings (genFramebuffer r) (genFramebuffer r)) e,
   GL (activeContextId e) (GenFramebuffers (genFramebuffer r)) ::
   GL (activeContextId e) (BindFramebuffer GL_FRAMEBUFFER (genFramebuffer r)) ::
   attachments (activeContextId e) this ++
   [GL (activeContextId e) (CheckFramebufferStatus true)]).
Proof.
  intros Hg Hc. unfold createFrameBuffer, attachments. unfold_m. simpl.
  destruct (N.eqb_spec (genFramebuffer r) 0); [done|]. rewrite Hc.
  by destruct (m_depthBuffer this =? 0).
Qed.

Lemma createFrameBuffer_incomplete_eq r this e :
  genFramebuffer r <> 0 -> statusComplete r = false ->
  exists e',
    createFrameBuffer r this e =
    ((false, this), e',
     (GL (activeContextId e) (GenFramebuffers (genFramebuffer r)) ::
      GL (activeContextId e) (BindFramebuffer GL_FRAMEBUFFER (genFramebuffer r)) ::
      attachments (activeContextId e) this ++
      [GL (activeContextId e) (CheckFramebufferStatus false)]) ++
     [GL (activeContextId e) (BindFramebuffer GL_FRAMEBUFFER 0);
      GL (activeContextId e) (DeleteFramebuffers (genFramebuffer r));
      Err FailedLinkTexture]) /\
    activeContextId e' = activeContextId e /\
    bindingsOf (activeContextId e) e' = mkBindings 0 0 /\
    (forall c, c <> activeContextId e -> bindingsOf c e' = bindingsOf c e).
Proof.
  intros Hg Hc. unfold createFrameBuffer, attachments. unfold_m. simpl.
  destruct (N.eqb_spec (genFramebuffer r) 0); [done|]. rewrite Hc. simpl.
  eexists. split; [by destruct (m_depthBuffer this =? 0)|].
  split; [done|]. split.
  - rewrite (bindingsOf_setBindings _ (setBindings _ (setBindings _ e))).
    rewrite (bindingsOf_setBindings _ (setBindings _ e)).
    apply unbindDeleted_unbound.
  - intros c Hne. by rewrite !bindingsOf_setBindings_ne.
Qed.

(** Whatever the driver answers, [createFrameBuffer] leaves the object as
    it is or inserts one entry under the current context. *)
Lemma createFrameBuffer_cases r this e :
  (createFrameBuffer r this e).1.1 = (false, this) \/
  (createFrameBuffer r this e).1.1 =
    (true, set_frameBuffers
             (map_insert (activeContextId e) (genFramebuffer r) (m_frameBuffers this)) this).
Proof.
  destruct (N.eqb_spec (genFramebuffer r) 0) as [Hg|Hg].
  - left. by rewrite createFrameBuffer_alloc_failure.
  - destruct (statusComplete r) eqn:Hc.
    + right. by rewrite createFrameBuffer_success.
    + left. destruct (createFrameBuffer_incomplete_eq r this e Hg Hc) as (e'&->&_). done.
Qed.

Lemma createFrameBuffer_active r this e :
  activeContextId (createFrameBuffer r this e).1.2 = activeContextId e.
Proof.
  destruct (N.eqb_spec (genFramebuffer r) 0) as [Hg|Hg].
  - by rewrite createFrameBuffer_alloc_failure.
  - destruct (statusComplete r) eqn:Hc.
    + by rewrite createFrameBuffer_success.
    + destruct (createFrameBuffer_incomplete_eq r this e Hg Hc) as (e'&->&?&_). done.
Qed.

End CreateFrameBuffer.

Section Create.

Lemma create_no_context es width height textureId r this e :
  activeContextId e = 0 ->
  create es width height textureId false r this e =
  ((true, set_textureId textureId this), e, []).
Proof. intros H. unfold create. unfold_m. simpl. by rewrite H. Qed.

Lemma restore_desktop b e c :
  bindingsOf c
    (setBindings
       (bindTarget GL_DRAW_FRAMEBUFFER (drawFramebuffer (bindingsOf (activeContextId e) e))
          (bindingsOf (activeContextId e)
             (setBindings
                (bindTarget GL_READ_FRAMEBUFFER
                   (readFramebuffer (bindingsOf (activeContextId e) e))
                   (bindingsOf (activeContextId e) (setBindings b e)))
                (setBindings b e))))
       (setBindings
          (bindTarget GL_READ_FRAMEBUFFER
             (readFramebuffer (bindingsOf (activeContextId e) e))
             (bindingsOf (activeContextId e) (setBindings b e)))
          (setBindings b e)))
  = bindingsOf c e.
Proof.
  destruct (decide (c = activeContextId e)) as [->|Hne].
  - rewrite (bindingsOf_setBindings _ (setBindings _ (setBindings _ e))).
    rewrite (bindingsOf_setBindings _ (setBindings _ e)).
    simpl. by destruct (bindingsOf (activeContextId e) e).
  - by rewrite !bindingsOf_setBindings_ne.
Qed.

Lemma restore_es b e c :
  readFramebuffer (bindingsOf (activeContextId e) e) =
  drawFramebuffer (bindingsOf (activeContextId e) e) ->
  bindingsOf c
    (setBindings
       (bindTarget GL_FRAMEBUFFER (drawFramebuffer (bindingsOf (activeContextId e) e))
          (bindingsOf (activeContextId e) (setBindings b e)))
       (setBindings b e))
  = bindingsOf c e.
Proof.
  intros Heq. destruct (decide (c = activeContextId e)) as [->|Hne].
  - rewrite (bindingsOf_setBindings _ (setBindings _ e)).
    simpl. destruct (bindingsOf (activeContextId e) e). simpl in *. congruence.
  - by rewrite !bindingsOf_setBindings_ne.
Qed.

(** What [create] does to the framebuffer bindings, on every path. *)
Lemma create_bindings_cases es width height textureId depthBuffer r this e :
  (es = true ->
   readFramebuffer (bindingsOf (activeContextId e) e) =
   drawFramebuffer (bindingsOf (activeContextId e) e)) ->
  let res := create es width height textureId depthBuffer r this e in
  if incompletePath depthBuffer r e then
    res.1.1.1 = false /\
    bindingsOf (activeContextId e) res.1.2 = mkBindings 0 0 /\
    (forall c, c <> activeContextId e -> bindingsOf c res.1.2 = bindingsOf c e)
  else preservesBindings e res.1.2.
Proof.
  intros Hes. unfold incompletePath, preservesBindings, create. unfold_m.
  assert (Htail : forall this2 : RenderTextureImplFBO,
    let res := createFrameBuffer r this2 e in
    activeContextId e <> 0 ->
    if negb (genFramebuffer r =? 0) && negb (statusComplete r) then
      res.1.1.1 = false /\ bindingsOf (activeContextId e) res.1.2 = mkBindings 0 0 /\
      (forall c, c <> activeContextId e -> bindingsOf c res.1.2 = bindingsOf c e)
    else (res.1.1.1 = false /\ res.1.2 = e) \/
         (res.1.1.1 = true /\
          res.1.2 = setBindings (mkBindings (genFramebuffer r) (genFramebuffer r)) e)).
  { intros this2 res Ha. subst res.
    destruct (N.eqb_spec (genFramebuffer r) 0) as [Hg|Hg]; simpl.
    - left. by rewrite createFrameBuffer_alloc_failure.
    - destruct (statusComplete r) eqn:Hc; simpl.
      + right. by rewrite createFrameBuffer_success.
      + destruct (createFrameBuffer_incomplete_eq r this2 e Hg Hc) as (e'&->&?&?&?).
        done. }
  destruct depthBuffer; simpl;
    [destruct (genRenderbuffer r =? 0); simpl;
       [by rewrite andb_false_r|]|];
    (destruct (N.eqb_spec (activeContextId e) 0) as [Ha|Ha]; simpl; [done|]);
    destruct es; simpl;
    match goal with
    | |- context [createFrameBuffer r ?o e] =>
        specialize (Htail o Ha); simpl in Htail;
        destruct (createFrameBuffer r o e) as [[[ok o'] e'] l']; simpl in *;
        destruct (negb (genFramebuffer r =? 0) && negb (statusComplete r));
        [destruct Htail as (->&?&?); simpl; done
        |destruct Htail as [[-> ->]|[-> ->]]; simpl; [done|];
         intros c; (apply restore_desktop || (apply restore_es; by apply Hes))]
    end.
Qed.

(** [create] never touches the backup context, and leaves the map as it is
    or with one entry inserted under the current context. *)
Lemma create_object es width height textureId depthBuffer r this e :
  let this' := (create es width height textureId depthBuffer r this e).1.1.2 in
  m_context this' = m_context this /\
  (m_frameBuffers this' = m_frameBuffers this \/
   m_frameBuffers this' =
     map_insert (activeContextId e) (genFramebuffer r) (m_frameBuffers this)).
Proof.
  unfold create. unfold_m.
  destruct depthBuffer; simpl; [destruct (genRenderbuffer r =? 0); simpl; [auto|]|];
    (destruct (activeContextId e =? 0); simpl; [auto|]);
    destruct es; simpl;
    match goal with
    | |- context [createFrameBuffer r ?o e] =>
        destruct (createFrameBuffer_cases r o e) as [H|H];
        destruct (createFrameBuffer r o e) as [[[ok o'] e'] l'];
        simpl in H; injection H as -> ->; simpl; auto
    end.
Qed.

End Create.

Section Activate.

Lemma lookupOrCreate_found c r this e fb :
  map_find c (m_frameBuffers this) = Some fb ->
  lookupOrCreate c r this e =
  ((true, this), setBindings (mkBindings fb fb) e,
   [GL (activeContextId e) (BindFramebuffer GL_FRAMEBUFFER fb)]).
Proof. intros H. unfold lookupOrCreate. by rewrite H. Qed.

Lemma lookupOrCreate_missing c r this e :
  map_find c (m_frameBuffers this) = None ->
  lookupOrCreate c r this e = createFrameBuffer r this e.
Proof. intros H. unfold lookupOrCreate. by rewrite H. Qed.

(** After a successful lookup-or-create the map holds a framebuffer for the
    current context, and that framebuffer is the one bound. *)
Lemma lookupOrCreate_true r this e this1 e1 l1 :
  lookupOrCreate (activeContextId e) r this e = ((true, this1), e1, l1) ->
  activeContextId e1 = activeContextId e /\
  m_context this1 = m_context this /\
  exists fb, map_find (activeContextId e) (m_frameBuffers this1) = Some fb /\
             bindingsOf (activeContextId e) e1 = mkBindings fb fb.
Proof.
  destruct (map_find (activeContextId e) (m_frameBuffers this)) as [fb|] eqn:Hf.
  - rewrite (lookupOrCreate_found _ _ _ _ _ Hf). intros [= <- <- <-].
    split_and!; [done..|]. exists fb. split; [done|]. apply bindingsOf_setBindings.
  - rewrite (lookupOrCreate_missing _ _ _ _ Hf).
    destruct (N.eqb_spec (genFramebuffer r) 0) as [Hg|Hg].
    { by rewrite createFrameBuffer_alloc_failure. }
    destruct (statusComplete r) eqn:Hc.
    + rewrite createFrameBuffer_success by done. intros [= <- <- <-].
      split_and!; [done..|]. exists (genFramebuffer r). split.
      * simpl. by apply map_find_insert.
      * apply bindingsOf_setBindings.
    + destruct (createFrameBuffer_incomplete_eq r this e Hg Hc) as (e'&->&_). done.
Qed.

(** [activate(true)] with a context current goes straight to the lookup. *)
Lemma activate_with_context r this e :
  activeContextId e <> 0 ->
  activate true r this e = lookupOrCreate (activeContextId e) r this e.
Proof.
  intros Ha. unfold activate. unfold_m. simpl.
  destruct (N.eqb_spec (activeContextId e) 0); [done|].
  by destruct (lookupOrCreate _ _ _ _) as [[[] ?] ?].
Qed.

(** [activate(true)] with no context current, when the backup context does
    not become current. *)
Lemma activate_backup_failure r this e :
  activeContextId e = 0 ->
  setActiveOk r = false \/ backupContext r this = 0 ->
  activate true r this e =
  ((false, set_context (Some (backupContext r this)) this),
   (if setActiveOk r then setActiveContextId 0 e else e),
   allocation r this ++
   [SetActive (backupContext r this) (setActiveOk r); Err FailedBackupContext]).
Proof.
  intros Ha Hfail. unfold activate, backupContext, allocation in *. unfold_m. simpl.
  rewrite Ha. simpl.
  destruct (m_context this) as [b|]; simpl in *;
    (destruct (setActiveOk r); simpl;
     [destruct Hfail as [?|Hb]; [done|]; rewrite Hb; simpl; done
     |by rewrite Ha]).
Qed.

(** [activate(true)] with no context current, when the backup context
    becomes current. *)
Lemma activate_backup_success r this e :
  activeContextId e = 0 ->
  setActiveOk r = true -> backupContext r this <> 0 ->
  let this1 := set_context (Some (backupContext r this)) this in
  let e1 := setActiveContextId (backupContext r this) e in
  activate true r this e =
  ((lookupOrCreate (backupContext r this) r this1 e1).1.1,
   (lookupOrCreate (backupContext r this) r this1 e1).1.2,
   allocation r this ++ SetActive (backupContext r this) true ::
   (lookupOrCreate (backupContext r this) r this1 e1).2).
Proof.
  intros Ha Hok Hb. unfold activate, backupContext, allocation in *. unfold_m. simpl.
  rewrite Ha, Hok. simpl.
  destruct (m_context this) as [b|]; simpl;
    (match goal with
     | |- context [?x =? 0] => destruct (N.eqb_spec x 0); [done|]
     end);
    by destruct (lookupOrCreate _ _ _ _) as [[[] ?] ?].
Qed.

Lemma allocations_app l1 l2 : allocations (l1 ++ l2) = (allocations l1 + allocations l2)%nat.
Proof. unfold allocations. by rewrite filter_app, length_app. Qed.

Lemma createFrameBuffer_allocations r this e :
  allocations (createFrameBuffer r this e).2 = 0%nat.
Proof.
  destruct (N.eqb_spec (genFramebuffer r) 0) as [Hg|Hg].
  { by rewrite createFrameBuffer_alloc_failure. }
  destruct (statusComplete r) eqn:Hc.
  - rewrite createFrameBuffer_success by done. simpl. unfold attachments.
    by destruct (m_depthBuffer this =? 0).
  - destruct (createFrameBuffer_incomplete_eq r this e Hg Hc) as (e'&->&_).
    simpl. unfold attachments. by destruct (m_depthBuffer this =? 0).
Qed.

Lemma lookupOrCreate_allocations c r this e :
  allocations (lookupOrCreate c r this e).2 = 0%nat.
Proof.
  unfold lookupOrCreate. destruct (map_find c (m_frameBuffers this)); [done|].
  apply createFrameBuffer_allocations.
Qed.

Lemma lookupOrCreate_object c r this e :
  let this' := (lookupOrCreate c r this e).1.1.2 in
  m_context this' = m_context this /\
  (m_frameBuffers this' = m_frameBuffers this \/
   m_frameBuffers this' =
     map_insert (activeContextId e) (genFramebuffer r) (m_frameBuffers this)).
Proof.
  unfold lookupOrCreate. destruct (map_find c (m_frameBuffers this)); simpl; [auto|].
  destruct (createFrameBuffer_cases r this e) as [H|H]; rewrite H; simpl; auto.
Qed.

(** [activate] allocates a backup context only when the object has none
    and no context is current, and then keeps it. *)
Lemma activate_allocations active r this e :
  let res := activate active r this e in
  allocations res.2 =
    (if active && (activeContextId e =? 0) && bool_decide (m_context this = None)
     then 1%nat else 0%nat) /\
  (forall b, m_context this = Some b -> m_context res.1.1.2 = Some b) /\
  (allocations res.2 = 1%nat -> m_context res.1.1.2 = Some (newContextId r)).
Proof.
  destruct active; simpl.
  2:{ unfold activate. unfold_m. simpl. done. }
  destruct (N.eqb_spec (activeContextId e) 0) as [Ha|Ha].
  2:{ rewrite activate_with_context by done. rewrite lookupOrCreate_allocations.
      destruct (lookupOrCreate_object (activeContextId e) r this e) as [-> _]. done. }
  destruct (decide (setActiveOk r = true /\ backupContext r this <> 0)) as [[Hok Hb]|Hn].
  - rewrite activate_backup_success by done. simpl.
    rewrite allocations_app. change (SetActive ?a ?b :: ?l) with ([SetActive a b] ++ l).
    rewrite allocations_app, lookupOrCreate_allocations.
    destruct (lookupOrCreate_object (backupContext r this) r
                (set_context (Some (backupContext r this)) this)
                (setActiveContextId (backupContext r this) e)) as [-> _].
    unfold allocation, backupContext. simpl.
    destruct (m_context this); simpl; split_and!; try done; congruence.
  - rewrite activate_backup_failure; [|done|].
    2:{ destruct (setActiveOk r); [right|by left].
        destruct (decide (backupContext r this = 0)); [done|]. exfalso. by apply Hn. }
    simpl. rewrite allocations_app. unfold allocation, backupContext. simpl.
    destruct (m_context this); simpl; split_and!; try done; congruence.
Qed.

Lemma activate_object active r this e :
  let this' := (activate active r this e).1.1.2 in
  m_frameBuffers this' = m_frameBuffers this \/
  exists c, m_frameBuffers this' = map_insert c (genFramebuffer r) (m_frameBuffers this).
Proof.
  destruct active; simpl.
  2:{ unfold activate. unfold_m. simpl. auto. }
  destruct (N.eqb_spec (activeContextId e) 0) as [Ha|Ha].
  2:{ rewrite activate_with_context by done.
      destruct (lookupOrCreate_object (activeContextId e) r this e) as [_ [->| ->]]; eauto. }
  destruct (decide (setActiveOk r = true /\ backupContext r this <> 0)) as [[Hok Hb]|Hn].
  - rewrite activate_backup_success by done. simpl.
    destruct (lookupOrCreate_object (backupContext r this) r
                (set_context (Some (backupContext r this)) this)
                (setActiveContextId (backupContext r this) e)) as [_ [->| ->]]; eauto.
  - rewrite activate_backup_failure; [|done|].
    2:{ destruct (setActiveOk r); [right|by left].
        destruct (decide (backupContext r this = 0)); [done|]. exfalso. by apply Hn. }
    simpl. auto.
Qed.

(** A successful [activate(true)] leaves a context current, a framebuffer
    for it in the map, and that framebuffer bound. *)
Lemma activate_true r this e this1 e1 l1 :
  activate true r this e = ((true, this1), e1, l1) ->
  activeContextId e1 <> 0 /\
  exists fb, map_find (activeContextId e1) (m_frameBuffers this1) = Some fb /\
             bindingsOf (activeContextId e1) e1 = mkBindings fb fb.
Proof.
  destruct (N.eqb_spec (activeContextId e) 0) as [Ha|Ha].
  - destruct (decide (setActiveOk r = true /\ backupContext r this <> 0)) as [[Hok Hb]|Hn].
    + rewrite activate_backup_success by done. simpl.
      set (this0 := set_context _ this). set (e0 := setActiveContextId _ e).
      destruct (lookupOrCreate _ r this0 e0) as [[[ok o'] e'] l'] eqn:Hl. simpl.
      intros [= -> -> -> <-].
      change (backupContext r this) with (activeContextId e0) in Hl.
      apply lookupOrCreate_true in Hl as (He&_&fb&?&?).
      rewrite He. split; [done|]. eauto.
    + rewrite activate_backup_failure; [done|done|].
      destruct (setActiveOk r); [right|by left].
      destruct (decide (backupContext r this = 0)); [done|]. exfalso. by apply Hn.
  - rewrite activate_with_context by done. intros Hl.
    apply lookupOrCreate_true in Hl as (He&_&fb&?&?).
    rewrite He. split; [done|]. eauto.
Qed.

End Activate.

(** ** The machine *)

Section Machine.

Lemma destructor_unfold this o w :
  let w1 := mkWorld (env w) (set_erase N.compare this (frameBuffers w))
                    (moveToStale (m_frameBuffers o) (staleFrameBuffers w)) (heap w) in
  destructor this o w =
  ((contextDestroyCallback w1).1,
   (if m_depthBuffer o =? 0 then []
    else [GL (activeContextId (env w)) (DeleteRenderbuffers (m_depthBuffer o))]) ++
   (contextDestroyCallback w1).2 ++
   match m_context o with Some c => [DeleteContext c] | None => [] end).
Proof.
  simpl. unfold destructor. unfold_m.
  destruct (m_depthBuffer o =? 0); simpl;
    by destruct (contextDestroyCallback _) as [w2 l2].
Qed.

Lemma evolves_refl o : evolves o o.
Proof. by split. Qed.

Lemma erased_evolves c o o' : erased c o o' -> evolves o o'.
Proof. intros (Hc&_&_&_&_&Hok). split; [congruence|done]. Qed.

Lemma call_Some {A} this (f : RenderTextureImplFBO -> M (A * RenderTextureImplFBO)) w w' l :
  call this f w = Some (w', l) ->
  exists o, heap w !! this = Some o /\
    w' = mkWorld (f o (env w)).1.2 (frameBuffers w) (staleFrameBuffers w)
                 (<[this := (f o (env w)).1.1.2]> (heap w)) /\
    l = (f o (env w)).2.
Proof.
  unfold call. destruct (heap w !! this) as [o|]; [|done].
  destruct (f o (env w)) as [[[a o'] e'] l'] eqn:Hf. intros [= <- <-].
  exists o. rewrite Hf. done.
Qed.

Lemma call_heap {A} this (f : RenderTextureImplFBO -> M (A * RenderTextureImplFBO)) w w' l p :
  (forall o e, evolves o (f o e).1.1.2) ->
  call this f w = Some (w', l) ->
  match heap w !! p, heap w' !! p with
  | Some o, Some o' => evolves o o'
  | None, None => True
  | _, _ => False
  end.
Proof.
  intros Hf Hc. apply call_Some in Hc as (o&Ho&->&_). simpl.
  destruct (decide (p = this)) as [->|Hne].
  - rewrite lookup_insert_eq, Ho. apply Hf.
  - rewrite lookup_insert_ne by done. destruct (heap w !! p); [apply evolves_refl|done].
Qed.

Lemma create_evolves es width height textureId depthBuffer r o e :
  evolves o (create es width height textureId depthBuffer r o e).1.1.2.
Proof.
  destruct (create_object es width height textureId depthBuffer r o e) as [Hc Hm].
  split; [congruence|].
  destruct Hm as [-> | ->]; [done|apply map_insert_ok].
Qed.

Lemma activate_evolves active r o e : evolves o (activate active r o e).1.1.2.
Proof.
  destruct (activate_allocations active r o e) as (_&Hc&_).
  split; [done|].
  destruct (activate_object active r o e) as [-> |[c ->]];
    [done|apply map_insert_ok].
Qed.

(** What one step does to the object at an address. *)
Lemma step_heap op w w' l p :
  step op w = Some (w', l) ->
  match heap w !! p, heap w' !! p with
  | Some o, Some o' => evolves o o'
  | Some o, None => op = Destruct p
  | None, Some o' => op = Construct p /\ o' = mkFBO None 0 0 []
  | None, None => True
  end.
Proof.
  destruct op as [this|this|this es width height textureId depthBuffer r
                  |this active r|this textureId| |c|c]; simpl.
  - destruct (heap w !! this) eqn:Hthis; [done|]. intros [= <- <-]. simpl.
    destruct (decide (p = this)) as [->|Hne].
    + by rewrite lookup_insert_eq, Hthis.
    + rewrite lookup_insert_ne by done. destruct (heap w !! p); [apply evolves_refl|done].
  - destruct (heap w !! this) as [o|] eqn:Hthis; [|done].
    pose proof (destructor_unfold this o w) as Hd. simpl in Hd. rewrite Hd. clear Hd.
    intros [= <- <-]. simpl.
    match goal with
    | |- context [contextDestroyCallback ?w1] =>
        pose proof (contextDestroyCallback_heap w1 p) as Hh
    end. simpl in Hh.
    destruct (decide (p = this)) as [->|Hne].
    + by rewrite lookup_delete_eq, Hthis.
    + rewrite lookup_delete_ne by done.
      destruct (heap w !! p); [|by rewrite Hh].
      destruct Hh as (o'&->&Her). by eapply erased_evolves.
  - intros Hc. eapply call_heap in Hc; [|intros; apply create_evolves].
    instantiate (1 := p) in Hc.
    destruct (heap w !! p), (heap w' !! p); done.
  - intros Hc. eapply call_heap in Hc; [|intros; apply activate_evolves].
    instantiate (1 := p) in Hc.
    destruct (heap w !! p), (heap w' !! p); done.
  - intros Hc. eapply call_heap in Hc; [|intros; apply evolves_refl].
    instantiate (1 := p) in Hc.
    destruct (heap w !! p), (heap w' !! p); done.
  - intros [= <- <-]. simpl. destruct (heap w !! p); [apply evolves_refl|done].
  - intros [= <- <-]. simpl. destruct (heap w !! p); [apply evolves_refl|done].
  - unfold contextTeardown.
    match goal with
    | |- context [contextDestroyCallback ?w1] =>
        pose proof (contextDestroyCallback_heap w1 p) as Hh;
        destruct (contextDestroyCallback w1) as [w2 l2]
    end. simpl in *. intros [= <- <-]. simpl.
    destruct (heap w !! p); [|by rewrite Hh].
    destruct Hh as (o'&->&Her). by eapply erased_evolves.
Qed.

(** The representation invariant of the maps holds in every world the
    machine reaches. *)
Lemma step_ok op w w' l : World_ok w -> step op w = Some (w', l) -> World_ok w'.
Proof.
  intros Hok Hs p o' Hp. pose proof (step_heap _ _ _ _ p Hs) as Hh. rewrite Hp in Hh.
  destruct (heap w !! p) as [o|] eqn:Ho.
  - destruct Hh as [_ Hm]. apply Hm. by eapply Hok.
  - destruct Hh as [_ ->]. done.
Qed.

Lemma run_ok ops w w' t : World_ok w -> run ops w = Some (w', t) -> World_ok w'.
Proof.
  revert w t. induction ops as [|op ops IH]; intros w t Hok; simpl.
  - by intros [= <- <-].
  - destruct (step op w) as [[w1 l]|] eqn:Hs; [|done].
    destruct (run ops w1) as [[w2 t']|] eqn:Hr; [|done].
    intros [= <- <-]. eapply IH; [|done]. by eapply step_ok.
Qed.

Lemma World_init_ok : World_ok World_init.
Proof. intros p o. unfold World_init. simpl. by rewrite lookup_empty. Qed.

(** Nothing ever leaves the stale set. *)
Lemma step_stale op w w' l x :
  step op w = Some (w', l) -> x ∈ staleFrameBuffers w -> x ∈ staleFrameBuffers w'.
Proof.
  destruct op as [this|this|this es width height textureId depthBuffer r
                  |this active r|this textureId| |c|c]; simpl.
  - destruct (heap w !! this); [done|]. by intros [= <- <-].
  - destruct (heap w !! this) as [o|]; [|done].
    pose proof (destructor_unfold this o w) as Hd. simpl in Hd. rewrite Hd. clear Hd.
    intros [= <- <-] Hx. simpl.
    match goal with
    | |- context [contextDestroyCallback ?w1] =>
        destruct (contextDestroyCallback_frame w1) as (_&->&_)
    end. simpl. apply elem_of_moveToStale. by right.
  - intros Hc. by apply call_Some in Hc as (o&_&->&_).
  - intros Hc. by apply call_Some in Hc as (o&_&->&_).
  - intros Hc. by apply call_Some in Hc as (o&_&->&_).
  - by intros [= <- <-].
  - by intros [= <- <-].
  - unfold contextTeardown.
    match goal with
    | |- context [contextDestroyCallback ?w1] =>
        pose proof (contextDestroyCallback_frame w1) as (_&Hst&_);
        destruct (contextDestroyCallback w1) as [w2 l2]
    end. simpl in *. intros [= <- <-]. simpl. by rewrite Hst.
Qed.

Lemma run_stale ops w w' t x :
  run ops w = Some (w', t) -> x ∈ staleFrameBuffers w -> x ∈ staleFrameBuffers w'.
Proof.
  revert w t. induction ops as [|op ops IH]; intros w t; simpl.
  - by intros [= <- <-].
  - destruct (step op w) as [[w1 l]|] eqn:Hs; [|done].
    destruct (run ops w1) as [[w2 t']|] eqn:Hr; [|done].
    intros [= <- <-] Hx. eapply IH; [done|]. by eapply step_stale.
Qed.

End Machine.

Section BackupContext.

Lemma budget_le_1 this w : (budget this w <= 1)%nat.
Proof. unfold budget. destruct (heap w !! this) as [o|]; [destruct (m_context o)|]; lia. Qed.

Lemma budget_step op w w1 l this :
  step op w = Some (w1, l) -> op <> Destruct this ->
  (budget this w1 <= budget this w)%nat.
Proof.
  intros Hs Hne. pose proof (step_heap _ _ _ _ this Hs) as Hh.
  pose proof (budget_le_1 this w1) as Hle. unfold budget in *.
  destruct (heap w !! this) as [o|]; [|done].
  destruct (heap w1 !! this) as [o'|]; [|done].
  destruct Hh as [Hc _]. destruct (m_context o) as [b|]; [|done].
  by rewrite (Hc b eq_refl).
Qed.

Lemma run_allocations ops w w' t this :
  run ops w = Some (w', t) -> Destruct this ∉ ops ->
  (contextsCreatedBy this t <= budget this w)%nat.
Proof.
  revert w t. induction ops as [|op ops IH]; intros w t; simpl.
  { intros [= <- <-] _. simpl. lia. }
  destruct (step op w) as [[w1 l]|] eqn:Hs; [|done].
  destruct (run ops w1) as [[w2 t']|] eqn:Hr; [|done].
  intros [= <- <-] Hnot.
  assert (op <> Destruct this) as Hop by set_solver.
  assert (Destruct this ∉ ops) as Hops by set_solver.
  specialize (IH _ _ Hr Hops).
  pose proof (budget_step _ _ _ _ _ Hs Hop) as Hb.
  destruct op as [p|p|p es width height textureId depthBuffer r
                  |p active r|p textureId| |c|c]; simpl; try lia.
  destruct (N.eqb_spec p this) as [->|Hp]; [|lia].
  simpl in Hs. apply call_Some in Hs as (o&Ho&->&->).
  destruct (activate_allocations active r o (env w)) as (Hn&_&Hnew). simpl in *.
  unfold budget in *. simpl in *. rewrite lookup_insert_eq in IH, Hb. rewrite Ho in *.
  destruct (active && (activeContextId (env w) =? 0) && bool_decide (m_context o = None))
    eqn:Hcond.
  - rewrite Hn in *. rewrite (Hnew eq_refl) in IH.
    apply andb_prop in Hcond as [_ Hnone]. apply bool_decide_eq_true in Hnone.
    rewrite Hnone. lia.
  - rewrite Hn. lia.
Qed.

End BackupContext.

(** ** The destructor *)

Section Destructor.




Lemma step_Destruct this o w :
  heap w !! this = Some o ->
  step (Destruct this) w =
  Some (set_heap (delete this (heap (destructor this o w).1)) (destructor this o w).1,
        (destructor this o w).2).
Proof. intros Ho. simpl. rewrite Ho. by destruct (destructor this o w). Qed.


End Destructor.

(** * The claims *)

(** ** C1: a framebuffer is deleted at most once *)

(** C1.  The claim is that no framebuffer is ever deleted twice, also when
    the callback runs once from the owner's destructor and again at the
    teardown of the same context.  On [destroy_then_teardown] the code
    deletes framebuffer 5 of context 1 twice, having generated it once: the
    destructor's pass deletes the entry it has just moved to the stale set,
    the entry stays in the set, and the teardown of context 1 deletes it
    again. *)
Theorem stale_framebuffer_deleted_twice :
  (fun wt => (events wt.2, staleFrameBuffers wt.1)) <$>
    run destroy_then_teardown World_init =
  Some ([RegisterContextDestroyCallback;
         GL 1 (GetIntegerv GL_READ_FRAMEBUFFER_BINDING 0);
         GL 1 (GetIntegerv GL_DRAW_FRAMEBUFFER_BINDING 0);
         GL 1 (GenFramebuffers 5);
         GL 1 (BindFramebuffer GL_FRAMEBUFFER 5);
         GL 1 (FramebufferTexture2D 7);
         GL 1 (CheckFramebufferStatus true);
         GL 1 (BindFramebuffer GL_READ_FRAMEBUFFER 0);
         GL 1 (BindFramebuffer GL_DRAW_FRAMEBUFFER 0);
         GL 1 (BindFramebuffer GL_FRAMEBUFFER 5);
         GL 1 (DeleteFramebuffers 5);
         GL 1 (DeleteFramebuffers 5)],
        [(1, 5)]).
Proof. vm_compute. reflexivity. Qed.

(** ** C2: the callback empties the stale set of the current context *)

(** C2.  The claim is that the callback deletes every stale entry of the
    current context and removes it from the stale set.  The code deletes
    them and removes none: after [orphan_then_current] the stale set holds
    (1, 5) and context 1 is current; the callback deletes framebuffer 5
    and the set still holds (1, 5). *)
Theorem stale_entry_survives_callback :
  exists w t,
    run orphan_then_current World_init = Some (w, t) /\
    activeContextId (env w) = 1 /\
    staleFrameBuffers w = [(1, 5)] /\
    (contextDestroyCallback w).2 = [GL 1 (DeleteFramebuffers 5)] /\
    staleFrameBuffers (contextDestroyCallback w).1 = [(1, 5)].
Proof. eexists _, _. split; [vm_compute; reflexivity|]. by vm_compute. Qed.

(** ** C3: destroying an owner *)

Section DestructorLog.




End DestructorLog.




(** ** C4: the callback deletes exactly the framebuffers of its context *)

(** C4.  When the callback runs with context [c] current (as it does at
    the teardown of [c]), the deletions it issues are exactly those of the
    entries keyed by [c] in the registered maps and in the stale set; no
    framebuffer of another context is deleted, and the entries of other
    contexts stay in their maps. *)
Theorem contextDestroyCallback_exact w :
  World_ok w ->
  let c := activeContextId (env w) in
  let w' := (contextDestroyCallback w).1 in
  let l := (contextDestroyCallback w).2 in
  (forall ev, ev ∈ l <->
     exists fb, ev = GL c (DeleteFramebuffers fb) /\
       ((exists p o, p ∈ frameBuffers w /\ heap w !! p = Some o /\
                     (c, fb) ∈ m_frameBuffers o) \/
        (c, fb) ∈ staleFrameBuffers w)) /\
  (forall k fb, k <> c -> GL k (DeleteFramebuffers fb) ∉ l) /\
  (forall p o k fb, heap w !! p = Some o -> (k, fb) ∈ m_frameBuffers o -> k <> c ->
     exists o', heap w' !! p = Some o' /\ (k, fb) ∈ m_frameBuffers o').
Proof.
  intros Hok c w' l. split_and!.
  - intros ev. split; [apply contextDestroyCallback_sound|].
    intros (fb&->&[(p&o&Hp&Ho&Hin)|Hin]).
    + eapply contextDestroyCallback_live; [done..| |done]. by eapply Hok.
    + by apply contextDestroyCallback_stale.
  - intros k fb Hne H. apply contextDestroyCallback_sound in H as (fb'&H&_).
    subst c. congruence.
  - intros p o k fb Ho Hin Hne.
    pose proof (contextDestroyCallback_heap w p) as Hh. rewrite Ho in Hh.
    destruct Hh as (o'&Ho'&(_&_&_&_&Hkeep&_)). exists o'. split; [done|].
    by apply Hkeep.
Qed.

Lemma two_owners_ok : World_ok two_owners.
Proof.
  intros p o Hp. unfold two_owners in Hp. simpl in Hp.
  apply lookup_insert_Some in Hp as [[_ <-]|[_ Hp]]; [simpl; lia|].
  apply lookup_insert_Some in Hp as [[_ <-]|[_ Hp]]; [simpl; done|].
  by rewrite lookup_empty in Hp.
Defined.

Lemma contextDestroyCallback_exact_witness :
  World_ok two_owners /\
  GL 1 (DeleteFramebuffers 5) ∈ (contextDestroyCallback two_owners).2 /\
  GL 1 (DeleteFramebuffers 7) ∈ (contextDestroyCallback two_owners).2 /\
  GL 2 (DeleteFramebuffers 6) ∉ (contextDestroyCallback two_owners).2.
Proof.
  split; [exact two_owners_ok|].
  destruct (contextDestroyCallback_exact two_owners two_owners_ok) as (Hiff&Hnot&_).
  split_and!.
  - apply Hiff. exists 5. split; [reflexivity|]. left.
    exists 100, (mkFBO None 0 7 [(1, 5); (2, 6)]).
    split; [simpl; set_solver|]. split; [reflexivity|]. simpl. set_solver.
  - apply Hiff. exists 7. split; [reflexivity|]. right. simpl. set_solver.
  - apply Hnot. discriminate.
Defined.

(** ** C5: one framebuffer per owner and context *)

Section Generation.

Lemma createFrameBuffer_log_current r o e k call :
  GL k call ∈ (createFrameBuffer r o e).2 -> k = activeContextId e.
Proof.
  destruct (N.eqb_spec (genFramebuffer r) 0) as [Hg|Hg].
  { rewrite createFrameBuffer_alloc_failure by done. cbn [snd].
    rewrite !elem_of_cons, elem_of_nil. intros [H|[H|[]]]; congruence. }
  assert (forall l, GL k call ∈ attachments (activeContextId e) o ++ l ->
                    k = activeContextId e \/ GL k call ∈ l) as Hatt.
  { intros l. unfold attachments. rewrite elem_of_app, elem_of_cons.
    intros [[H|H]|H]; [left; congruence| |by right].
    destruct (m_depthBuffer o =? 0); [by apply elem_of_nil in H|].
    apply list_elem_of_singleton in H. left. congruence. }
  destruct (statusComplete r) eqn:Hc.
  - rewrite createFrameBuffer_success by done. cbn [snd].
    rewrite !elem_of_cons. intros [H|[H|H]]; [congruence..|].
    apply Hatt in H as [H|H]; [done|].
    apply list_elem_of_singleton in H. congruence.
  - destruct (createFrameBuffer_incomplete_eq r o e Hg Hc) as (e'&->&_). cbn [snd].
    rewrite elem_of_app, !elem_of_cons, elem_of_nil.
    intros [[H|[H|H]]|[H|[H|[H|[]]]]]; try congruence.
    apply Hatt in H as [H|H]; [done|].
    apply list_elem_of_singleton in H. congruence.
Qed.

Lemma lookupOrCreate_generates c r o e k fb :
  GL k (GenFramebuffers fb) ∈ (lookupOrCreate c r o e).2 ->
  k = activeContextId e /\ map_find c (m_frameBuffers o) = None.
Proof.
  unfold lookupOrCreate. destruct (map_find c (m_frameBuffers o)) as [fb'|].
  - simpl. intros H. apply list_elem_of_singleton in H. discriminate.
  - intros H. apply createFrameBuffer_log_current in H. done.
Qed.

(** [activate] generates a framebuffer only for a context the map has no
    entry for. *)
Lemma activate_generates r o e k fb :
  GL k (GenFramebuffers fb) ∈ (activate true r o e).2 ->
  map_find k (m_frameBuffers o) = None.
Proof.
  destruct (N.eqb_spec (activeContextId e) 0) as [Ha|Ha].
  - destruct (decide (setActiveOk r = true /\ backupContext r o <> 0)) as [[Hok Hb]|Hn].
    + rewrite activate_backup_success by done. cbn [snd].
      rewrite elem_of_app, elem_of_cons. intros [H|[H|H]].
      * unfold allocation in H. destruct (m_context o); [by apply elem_of_nil in H|].
        apply list_elem_of_singleton in H. discriminate.
      * discriminate.
      * apply lookupOrCreate_generates in H as [-> H]. done.
    + rewrite activate_backup_failure; [|done|].
      2:{ destruct (setActiveOk r); [right|by left].
          destruct (decide (backupContext r o = 0)); [done|]. exfalso. by apply Hn. }
      cbn [snd]. rewrite elem_of_app, !elem_of_cons, elem_of_nil.
      intros [H|[H|[H|[]]]]; try discriminate.
      unfold allocation in H. destruct (m_context o); [by apply elem_of_nil in H|].
      apply list_elem_of_singleton in H. discriminate.
  - rewrite activate_with_context by done. intros H.
    apply lookupOrCreate_generates in H as [-> H]. done.
Qed.

End Generation.

(** C5.  In every world the machine reaches, the map of every owner holds
    at most one framebuffer per context; [activate(true)] generates a
    framebuffer only for a context the map has no entry for; under a
    context whose framebuffer the map holds it binds that framebuffer and
    calls the driver for nothing else; and so two [activate(true)] in a
    row under the same context bind the same framebuffer, the second one
    generating none. *)
Theorem one_framebuffer_per_context ops w t p o :
  run ops World_init = Some (w, t) ->
  heap w !! p = Some o ->
  (forall c fb1 fb2,
     (c, fb1) ∈ m_frameBuffers o -> (c, fb2) ∈ m_frameBuffers o -> fb1 = fb2) /\
  (forall r e c fb,
     GL c (GenFramebuffers fb) ∈ (activate true r o e).2 ->
     map_find c (m_frameBuffers o) = None) /\
  (forall r e fb,
     activeContextId e <> 0 -> (activeContextId e, fb) ∈ m_frameBuffers o ->
     activate true r o e =
     ((true, o), setBindings (mkBindings fb fb) e,
      [GL (activeContextId e) (BindFramebuffer GL_FRAMEBUFFER fb)])) /\
  (forall r1 r2 e o1 e1 l1 e2,
     activate true r1 o e = ((true, o1), e1, l1) ->
     activeContextId e2 = activeContextId e1 ->
     exists fb,
       bindingsOf (activeContextId e1) e1 = mkBindings fb fb /\
       activate true r2 o1 e2 =
       ((true, o1), setBindings (mkBindings fb fb) e2,
        [GL (activeContextId e1) (BindFramebuffer GL_FRAMEBUFFER fb)])).
Proof.
  intros Hr Ho.
  assert (map_ok (m_frameBuffers o)) as Hok.
  { eapply (run_ok _ _ _ _ World_init_ok Hr). done. }
  split_and!.
  - intros c fb1 fb2. by apply map_ok_unique.
  - intros r e c fb. apply activate_generates.
  - intros r e fb Ha Hin. apply (elem_map_find _ _ _ Hok) in Hin.
    rewrite activate_with_context by done. by apply lookupOrCreate_found.
  - intros r1 r2 e o1 e1 l1 e2 Hact He2.
    apply activate_true in Hact as (Ha&fb&Hf&Hb). exists fb. split; [done|].
    rewrite activate_with_context by congruence.
    rewrite He2. rewrite (lookupOrCreate_found _ _ _ _ _ Hf). by rewrite He2.
Qed.

Lemma one_framebuffer_per_context_witness :
  run [Construct 100] World_init =
    Some (mkWorld (mkEnv 0 ∅) [100] [] (<[100 := fresh]> ∅),
          [(Construct 100, [RegisterContextDestroyCallback])]) /\
  (<[100 := fresh]> ∅ : gmap N RenderTextureImplFBO) !! 100 = Some fresh /\
  bindingsOf 1 (activate true driver_ok fresh (mkEnv 1 ∅)).1.2 = mkBindings 5 5 /\
  (activate true driver_ok
     (activate true driver_ok fresh (mkEnv 1 ∅)).1.1.2
     (activate true driver_ok fresh (mkEnv 1 ∅)).1.2).2 =
  [GL 1 (BindFramebuffer GL_FRAMEBUFFER 5)].
Proof.
  assert (run [Construct 100] World_init =
    Some (mkWorld (mkEnv 0 ∅) [100] [] (<[100 := fresh]> ∅),
          [(Construct 100, [RegisterContextDestroyCallback])])) as Hr
    by (vm_compute; reflexivity).
  split; [exact Hr|]. split; [reflexivity|].
  destruct (one_framebuffer_per_context _ _ _ 100 fresh Hr eq_refl) as (_&_&_&Htwice).
  destruct (Htwice driver_ok driver_ok (mkEnv 1 ∅)
              (activate true driver_ok fresh (mkEnv 1 ∅)).1.1.2
              (activate true driver_ok fresh (mkEnv 1 ∅)).1.2
              (activate true driver_ok fresh (mkEnv 1 ∅)).2
              (activate true driver_ok fresh (mkEnv 1 ∅)).1.2
              eq_refl eq_refl) as (fb&Hb&Hact).
  assert (fb = 5) as -> by (vm_compute in Hb; congruence).
  split; [exact Hb|]. rewrite Hact. reflexivity.
Defined.

(** ** C6: deletions happen under the context of the entry *)

(** C6.  Every call the callback makes is the deletion of a framebuffer
    whose entry, in a registered map or in the stale set, is keyed by the
    context current on the calling thread. *)
Theorem contextDestroyCallback_deletes_current w ev :
  ev ∈ (contextDestroyCallback w).2 ->
  exists fb,
    ev = GL (activeContextId (env w)) (DeleteFramebuffers fb) /\
    ((exists p o, p ∈ frameBuffers w /\ heap w !! p = Some o /\
                  (activeContextId (env w), fb) ∈ m_frameBuffers o) \/
     (activeContextId (env w), fb) ∈ staleFrameBuffers w).
Proof. apply contextDestroyCallback_sound. Qed.

Lemma contextDestroyCallback_deletes_current_witness :
  GL 1 (DeleteFramebuffers 4) ∈ (contextDestroyCallback two_owners).2 /\
  exists fb,
    GL 1 (DeleteFramebuffers 4) = GL (activeContextId (env two_owners)) (DeleteFramebuffers fb) /\
    ((exists p o, p ∈ frameBuffers two_owners /\ heap two_owners !! p = Some o /\
                  (activeContextId (env two_owners), fb) ∈ m_frameBuffers o) \/
     (activeContextId (env two_owners), fb) ∈ staleFrameBuffers two_owners).
Proof.
  assert (GL 1 (DeleteFramebuffers 4) ∈ (contextDestroyCallback two_owners).2) as Hin.
  { vm_compute. set_solver. }
  split; [exact Hin|].
  exact (contextDestroyCallback_deletes_current two_owners _ Hin).
Defined.

(** ** C7: [create] and the framebuffer bindings *)

(** C7.  The claim is that [create] leaves the framebuffer bindings as it
    found them whatever the outcome.  [create] saves them (lines 189-194,
    "so we can restore them after we are done") and restores them when
    [createFrameBuffer] succeeds, but returns at line 222 with the saved
    values unused when it fails.  When the driver reports the framebuffer
    incomplete, [createFrameBuffer] has bound the new framebuffer and then
    framebuffer 0: with framebuffers 3 and 4 bound for reading and drawing,
    [create] returns [false] with both bindings at 0, while the same call
    with a driver that reports the framebuffer complete leaves 3 and 4
    bound. *)
Lemma create_incomplete_loses_bindings :
  (create false 64 64 7 false driver_incomplete fresh env_bound).1.1.1 = false /\
  bindingsOf 1 env_bound = mkBindings 3 4 /\
  bindingsOf 1 (create false 64 64 7 false driver_incomplete fresh env_bound).1.2
    = mkBindings 0 0 /\
  ~ preservesBindings env_bound
      (create false 64 64 7 false driver_incomplete fresh env_bound).1.2 /\
  preservesBindings env_bound
    (create false 64 64 7 false driver_ok fresh env_bound).1.2.
Proof.
  split_and!; [by vm_compute..| |].
  - intros H. specialize (H 1). vm_compute in H. discriminate.
  - apply (create_bindings_cases false 64 64 7 false driver_ok fresh env_bound).
    discriminate.
Qed.

(** ** C8: an incomplete framebuffer *)

(** C8.  When the driver allocates the framebuffer and then reports it
    incomplete, [createFrameBuffer] returns [false] with the object as it
    was (no entry inserted), having unbound and deleted the framebuffer as
    its last driver calls; an [activate(true)] that gets there fails the
    same way, and a later [activate(true)] under the same context, with a
    driver that reports the framebuffer complete, succeeds and inserts the
    entry. *)
Theorem createFrameBuffer_incomplete r this e :
  genFramebuffer r <> 0 -> statusComplete r = false ->
  let a := activeContextId e in
  (createFrameBuffer r this e).1.1 = (false, this) /\
  (exists pre,
     (createFrameBuffer r this e).2 =
       pre ++ [GL a (BindFramebuffer GL_FRAMEBUFFER 0);
               GL a (DeleteFramebuffers (genFramebuffer r));
               Err FailedLinkTexture] /\
     GL a (GenFramebuffers (genFramebuffer r)) ∈ pre /\
     (GL a (DeleteFramebuffers (genFramebuffer r)) ∉ pre)) /\
  (a <> 0 -> map_find a (m_frameBuffers this) = None ->
   (activate true r this e).1.1 = (false, this) /\
   activeContextId (activate true r this e).1.2 = a /\
   forall r',
     genFramebuffer r' <> 0 -> statusComplete r' = true ->
     (activate true r' this (activate true r this e).1.2).1.1 =
     (true, set_frameBuffers
              (map_insert a (genFramebuffer r') (m_frameBuffers this)) this)).
Proof.
  intros Hg Hc a. subst a.
  destruct (createFrameBuffer_incomplete_eq r this e Hg Hc) as (e'&Heq&Ha&_).
  split_and!.
  - by rewrite Heq.
  - eexists. rewrite Heq. cbn [snd]. split; [reflexivity|].
    unfold attachments. destruct (m_depthBuffer this =? 0); split; set_solver.
  - intros Hne Hf. rewrite activate_with_context by done.
    rewrite lookupOrCreate_missing by done. rewrite Heq. simpl.
    split_and!; [done..|]. intros r' Hg' Hc'.
    rewrite activate_with_context by congruence.
    rewrite Ha. rewrite lookupOrCreate_missing by done.
    rewrite createFrameBuffer_success by done. simpl. by rewrite Ha.
Qed.

Lemma createFrameBuffer_incomplete_witness :
  genFramebuffer driver_incomplete <> 0 /\
  statusComplete driver_incomplete = false /\
  (createFrameBuffer driver_incomplete fresh env_bound).1.1 = (false, fresh) /\
  (activate true driver_ok fresh
     (activate true driver_incomplete fresh env_bound).1.2).1.1 =
  (true, mkFBO None 0 0 [(1, 5)]).
Proof.
  split; [discriminate|]. split; [reflexivity|].
  destruct (createFrameBuffer_incomplete driver_incomplete fresh env_bound
              (fun H => N.neq_succ_0 4 H) eq_refl) as (H1&_&H3).
  split; [exact H1|].
  destruct H3 as (_&_&Hretry); [discriminate|reflexivity|].
  exact (Hretry driver_ok (fun H => N.neq_succ_0 4 H) eq_refl).
Defined.

(** ** C9: the backup context *)

Section BackupContextFacts.

Lemma run_context_kept ops w w' t this o b :
  run ops w = Some (w', t) -> Destruct this ∉ ops ->
  heap w !! this = Some o -> m_context o = Some b ->
  exists o', heap w' !! this = Some o' /\ m_context o' = Some b.
Proof.
  revert w t o. induction ops as [|op ops IH]; intros w t o; simpl.
  { intros [= <- <-] _ Ho Hb. eauto. }
  destruct (step op w) as [[w1 l]|] eqn:Hs; [|done].
  destruct (run ops w1) as [[w2 t']|] eqn:Hr; [|done].
  intros [= <- <-] Hnot Ho Hb.
  pose proof (step_heap _ _ _ _ this Hs) as Hh. rewrite Ho in Hh.
  destruct (heap w1 !! this) as [o1|] eqn:Ho1.
  2:{ exfalso. apply Hnot. apply elem_of_cons. by left. }
  destruct Hh as [Hc _]. eapply IH; [done| |done|by apply Hc].
  intros Hin. apply Hnot. apply elem_of_cons. by right.
Qed.

Lemma lookupOrCreate_good c r o e :
  genFramebuffer r <> 0 -> statusComplete r = true ->
  (lookupOrCreate c r o e).1.1.1 = true.
Proof.
  intros Hg Hc. unfold lookupOrCreate.
  destruct (map_find c (m_frameBuffers o)); [done|].
  by rewrite createFrameBuffer_success.
Qed.

Lemma activate_no_context r o e :
  activeContextId e = 0 ->
  m_context (activate true r o e).1.1.2 = Some (backupContext r o) /\
  allocations (activate true r o e).2 =
    match m_context o with Some _ => 0%nat | None => 1%nat end /\
  SetActive (backupContext r o) (setActiveOk r) ∈ (activate true r o e).2.
Proof.
  intros Ha.
  destruct (decide (setActiveOk r = true /\ backupContext r o <> 0)) as [[Hok Hb]|Hn].
  - rewrite activate_backup_success by done. simpl.
    destruct (lookupOrCreate_object (backupContext r o) r
                (set_context (Some (backupContext r o)) o)
                (setActiveContextId (backupContext r o) e)) as [-> _].
    rewrite allocations_app. change (SetActive ?a ?b :: ?l) with ([SetActive a b] ++ l).
    rewrite allocations_app, lookupOrCreate_allocations.
    split; [done|]. split; [unfold allocation; destruct (m_context o); reflexivity|].
    rewrite Hok, !elem_of_app. right. left. by apply list_elem_of_singleton.
  - rewrite activate_backup_failure; [|done|].
    2:{ destruct (setActiveOk r); [right|by left].
        destruct (decide (backupContext r o = 0)); [done|]. exfalso. by apply Hn. }
    simpl. rewrite allocations_app.
    split; [done|]. split; [unfold allocation; destruct (m_context o); reflexivity|].
    rewrite elem_of_app. right. apply elem_of_cons. by left.
Qed.

End BackupContextFacts.

(** C9.  Along any run in which the object at [this] is not destroyed, it
    allocates at most one backup context, and none if it starts with one,
    which it then keeps.  A single [activate(true)] with no context
    current allocates the backup context exactly when the object has none,
    asks the backup context to become current either way, and leaves the
    object holding it.  When it does not become current the call returns
    [false], changes nothing else in the object and nothing in the
    environment, and a later call in which it does become current
    allocates nothing and succeeds with a driver that delivers. *)
Theorem backup_context_created_once ops w w' t this :
  run ops w = Some (w', t) -> Destruct this ∉ ops ->
  (contextsCreatedBy this t <= 1)%nat /\
  (forall o b, heap w !! this = Some o -> m_context o = Some b ->
     contextsCreatedBy this t = 0%nat /\
     exists o', heap w' !! this = Some o' /\ m_context o' = Some b) /\
  (forall o r e, activeContextId e = 0 ->
     let res := activate true r o e in
     m_context res.1.1.2 = Some (backupContext r o) /\
     allocations res.2 = match m_context o with Some _ => 0%nat | None => 1%nat end /\
     SetActive (backupContext r o) (setActiveOk r) ∈ res.2 /\
     (setActiveOk r = false ->
        res.1.1 = (false, set_context (Some (backupContext r o)) o) /\
        res.1.2 = e /\
        forall r',
          setActiveOk r' = true -> backupContext r o <> 0 ->
          genFramebuffer r' <> 0 -> statusComplete r' = true ->
          (activate true r' res.1.1.2 e).1.1.1 = true /\
          allocations (activate true r' res.1.1.2 e).2 = 0%nat)).
Proof.
  intros Hr Hnot. split_and!.
  - pose proof (run_allocations _ _ _ _ _ Hr Hnot). pose proof (budget_le_1 this w). lia.
  - intros o b Ho Hb. split; [|by eapply run_context_kept].
    pose proof (run_allocations _ _ _ _ _ Hr Hnot) as Hle.
    unfold budget in Hle. rewrite Ho, Hb in Hle. lia.
  - intros o r e Ha res. subst res.
    destruct (activate_no_context r o e Ha) as (Hc&Hn&Hs).
    split_and!; [done..|]. intros Hfail.
    rewrite activate_backup_failure by auto. rewrite Hfail. simpl.
    split_and!; [done..|]. intros r' Hok' Hb Hg Hc'.
    set (o1 := set_context (Some (backupContext r o)) o).
    assert (backupContext r' o1 = backupContext r o) as Hb1 by done.
    rewrite activate_backup_success by (done || by rewrite Hb1). simpl.
    split; [by apply lookupOrCreate_good|].
    change (SetActive ?a ?b :: ?l) with ([SetActive a b] ++ l).
    by rewrite allocations_app, lookupOrCreate_allocations.
Qed.

Lemma backup_context_created_once_witness :
  (Destruct 100 ∉ [Construct 100; Activate 100 true driver_ok; MakeCurrent 0;
                   Activate 100 true driver_ok]) /\
  exists w' t,
    run [Construct 100; Activate 100 true driver_ok; MakeCurrent 0;
         Activate 100 true driver_ok] World_init = Some (w', t) /\
    (contextsCreatedBy 100 t <= 1)%nat.
Proof.
  assert (Destruct 100 ∉ [Construct 100; Activate 100 true driver_ok; MakeCurrent 0;
                          Activate 100 true driver_ok]) as Hnot.
  { intros H. repeat (apply elem_of_cons in H as [H|H]; [discriminate|]).
    by apply elem_of_nil in H. }
  split; [exact Hnot|].
  assert ({wt | run [Construct 100; Activate 100 true driver_ok; MakeCurrent 0;
                     Activate 100 true driver_ok] World_init = Some wt}) as [[w' t] Hr].
  { eexists. vm_compute. reflexivity. }
  exists w', t. split; [exact Hr|].
  exact (proj1 (backup_context_created_once _ _ _ _ 100 Hr Hnot)).
Defined.

(** ** C10: [create] with no context current *)

(** C10.  With no context current and no depth buffer asked for, [create]
    returns [true], calls the driver for nothing (so generates no
    framebuffer), leaves the environment as it is and the object with only
    its texture identifier set: the map is as it was. *)
Theorem create_without_context es width height textureId r this e :
  activeContextId e = 0 ->
  create es width height textureId false r this e =
    ((true, set_textureId textureId this), e, []) /\
  m_frameBuffers (create es width height textureId false r this e).1.1.2 =
    m_frameBuffers this.
Proof. intros Ha. rewrite create_no_context by done. done. Qed.

Lemma create_without_context_witness :
  activeContextId (mkEnv 0 ∅) = 0 /\
  create false 64 64 7 false driver_ok fresh (mkEnv 0 ∅) =
    ((true, mkFBO None 0 7 []), mkEnv 0 ∅, []).
Proof.
  split; [reflexivity|].
  exact (proj1 (create_without_context false 64 64 7 driver_ok fresh (mkEnv 0 ∅) eq_refl)).
Defined.

(** * Further properties *)

(** ** The callback on an empty scan *)

Section EmptyScan.

Lemma destroyActive_none c ps h e :
  (forall p o, p ∈ ps -> h !! p = Some o -> map_find c (m_frameBuffers o) = None) ->
  destroyActive c ps h e = (h, e, []).
Proof.
  induction ps as [|p ps IH]; intros Hnone; simpl; [done|].
  assert (destroyActive c ps h e = (h, e, [])) as Hrest.
  { apply IH. intros q o Hq. apply Hnone. by apply elem_of_cons; right. }
  destruct (h !! p) as [o|] eqn:Hp; [|done].
  pose proof (eraseContext_found c (m_frameBuffers o)) as Hf.
  rewrite (Hnone p o) in Hf by (done || (apply elem_of_cons; by left)).
  destruct (eraseContext c (m_frameBuffers o)) as [[fb|] m']; simpl in Hf; done.
Qed.

Lemma destroyStale_none c s e :
  (forall fb, (c, fb) ∉ s) -> destroyStale c s e = (tt, e, []).
Proof.
  induction s as [|[k fb] s IH]; intros Hnone; simpl; [done|].
  unfold mbind, M_bind. destruct (N.eqb_spec k c) as [->|Hne].
  - exfalso. apply (Hnone fb). apply elem_of_cons. by left.
  - simpl. rewrite IH; [done|]. intros fb' Hin. apply (Hnone fb').
    apply elem_of_cons. by right.
Qed.

End EmptyScan.

(** X1.  When no registered map and no stale entry is keyed by the current
    context, the callback calls the driver for nothing and leaves the
    world exactly as it is. *)
Theorem contextDestroyCallback_nothing_to_do w :
  (forall p o, p ∈ frameBuffers w -> heap w !! p = Some o ->
     map_find (activeContextId (env w)) (m_frameBuffers o) = None) ->
  (forall fb, (activeContextId (env w), fb) ∉ staleFrameBuffers w) ->
  contextDestroyCallback w = (w, []).
Proof.
  intros Hlive Hstale. unfold contextDestroyCallback.
  rewrite destroyActive_none by done. rewrite destroyStale_none by done.
  by destruct w.
Qed.

Lemma contextDestroyCallback_nothing_to_do_witness :
  contextDestroyCallback quiet = (quiet, []).
Proof.
  apply contextDestroyCallback_nothing_to_do.
  - intros p o Hp Ho. unfold quiet in *. simpl in *.
    apply lookup_insert_Some in Ho as [[_ <-]|[_ Ho]]; [reflexivity|].
    by rewrite lookup_empty in Ho.
  - intros fb Hin. unfold quiet in Hin. simpl in Hin.
    apply list_elem_of_singleton in Hin. discriminate.
Defined.

(** ** The callback and the registered maps *)

Section LiveEntries.

Lemma erased_find_none c o o' :
  erased c o o' -> map_ok (m_frameBuffers o) ->
  map_find c (m_frameBuffers o) = None -> map_find c (m_frameBuffers o') = None.
Proof.
  intros (_&_&_&Hsub&_&_) Hok Hnone.
  destruct (map_find c (m_frameBuffers o')) as [v|] eqn:Hf; [|done].
  apply map_find_elem, Hsub in Hf. apply (elem_map_find _ _ _ Hok) in Hf. congruence.
Qed.

(** After the first loop no visited map holds an entry for the context. *)
Lemma destroyActive_gone c ps h e p o' :
  (forall q o, h !! q = Some o -> map_ok (m_frameBuffers o)) ->
  p ∈ ps -> (destroyActive c ps h e).1.1 !! p = Some o' ->
  map_find c (m_frameBuffers o') = None.
Proof.
  revert h e. induction ps as [|p0 ps IH]; intros h e Hok Hin; [by apply elem_of_nil in Hin|].
  simpl. destruct (decide (p = p0)) as [->|Hne].
  - destruct (h !! p0) as [o0|] eqn:Hp0.
    2:{ pose proof (destroyActive_heap c ps h e p0) as Hh. rewrite Hp0 in Hh.
        rewrite Hh. done. }
    pose proof (eraseContext_found c (m_frameBuffers o0)) as Hf.
    pose proof (eraseContext_gone c (m_frameBuffers o0) (Hok _ _ Hp0)) as Hg.
    pose proof (eraseContext_ok c (m_frameBuffers o0) (Hok _ _ Hp0)) as Hm.
    destruct (eraseContext c (m_frameBuffers o0)) as [[fb|] m']; simpl in *.
    + pose proof (destroyActive_heap c ps (<[p0:=set_frameBuffers m' o0]> h)
                    (setBindings (unbindDeleted fb (bindingsOf (activeContextId e) e)) e)
                    p0) as Hh.
      rewrite lookup_insert_eq in Hh. destruct Hh as (o''&Ho''&Her).
      destruct (destroyActive c ps _ _) as [[h2 e2] l2]. simpl in *.
      rewrite Ho''. intros [= <-]. by eapply erased_find_none.
    + pose proof (destroyActive_heap c ps h e p0) as Hh. rewrite Hp0 in Hh.
      destruct Hh as (o''&Ho''&Her). rewrite Ho''. intros [= <-].
      eapply erased_find_none; [done|by eapply Hok|congruence].
  - assert (p ∈ ps) as Hin' by (apply elem_of_cons in Hin as [?|?]; done).
    destruct (h !! p0) as [o0|] eqn:Hp0; [|by apply IH].
    pose proof (eraseContext_ok c (m_frameBuffers o0) (Hok _ _ Hp0)) as Hm.
    destruct (eraseContext c (m_frameBuffers o0)) as [[fb|] m']; [|by apply IH].
    specialize (IH (<[p0:=set_frameBuffers m' o0]> h)
                   (setBindings (unbindDeleted fb (bindingsOf (activeContextId e) e)) e)).
    destruct (destroyActive c ps _ _) as [[h2 e2] l2]. simpl in *.
    apply IH; [|done]. intros q o Hq.
    apply lookup_insert_Some in Hq as [[_ <-]|[_ Hq]]; [done|by eapply Hok].
Qed.

Lemma contextDestroyCallback_gone w p o' :
  World_ok w -> p ∈ frameBuffers w ->
  heap (contextDestroyCallback w).1 !! p = Some o' ->
  map_find (activeContextId (env w)) (m_frameBuffers o') = None.
Proof.
  intros Hok Hin. rewrite contextDestroyCallback_unfold. simpl.
  by apply destroyActive_gone.
Qed.

End LiveEntries.

(** X2.  After the callback no registered map holds an entry for the
    current context: what the first loop deletes it also erases (the
    single entry that the unique keys of [std::map] allow). *)
Theorem contextDestroyCallback_erases_live w p o :
  World_ok w -> p ∈ frameBuffers w -> heap w !! p = Some o ->
  exists o',
    heap (contextDestroyCallback w).1 !! p = Some o' /\
    map_find (activeContextId (env w)) (m_frameBuffers o') = None /\
    (forall fb, (activeContextId (env w), fb) ∉ m_frameBuffers o').
Proof.
  intros Hok Hin Ho.
  pose proof (contextDestroyCallback_heap w p) as Hh. rewrite Ho in Hh.
  destruct Hh as (o'&Ho'&Her). exists o'. split; [done|].
  pose proof (contextDestroyCallback_gone w p o' Hok Hin Ho') as Hnone.
  split; [done|]. intros fb Hfb.
  destruct Her as (_&_&_&_&_&Hok'). specialize (Hok' (Hok _ _ Ho)).
  apply (elem_map_find _ _ _ Hok') in Hfb. congruence.
Qed.

Lemma contextDestroyCallback_erases_live_witness :
  World_ok two_owners /\ 100 ∈ frameBuffers two_owners /\
  exists o',
    heap (contextDestroyCallback two_owners).1 !! 100 = Some o' /\
    map_find 1 (m_frameBuffers o') = None.
Proof.
  split; [exact two_owners_ok|].
  assert (100 ∈ frameBuffers two_owners) as Hin by (apply elem_of_cons; by left).
  split; [exact Hin|].
  destruct (contextDestroyCallback_erases_live two_owners 100
              (mkFBO None 0 7 [(1, 5); (2, 6)]) two_owners_ok Hin eq_refl)
    as (o'&Ho'&Hnone&_).
  exists o'. split; [exact Ho'|exact Hnone].
Defined.

(** ** The registry of live maps *)

Section Registry.

Lemma elem_of_set_erase_ne (x q : N) (s : list N) :
  q ∈ s -> q <> x -> q ∈ set_erase N.compare x s.
Proof.
  intros Hin Hne. induction s as [|y s IH]; simpl; [done|].
  apply elem_of_cons in Hin as [->|Hin].
  - destruct (N.compare_spec x y); [congruence|apply elem_of_cons; by left..].
  - destruct (x ?= y); [done|apply elem_of_cons; right; by apply IH..].
Qed.

Lemma elem_of_set_erase (x q : N) (s : list N) :
  q ∈ set_erase N.compare x s -> q ∈ s.
Proof.
  induction s as [|y s IH]; simpl; [done|].
  destruct (x ?= y); rewrite !elem_of_cons; intuition.
Qed.

Lemma not_elem_of_set_erase (x : N) (s : list N) :
  NoDup s -> x ∉ set_erase N.compare x s.
Proof.
  induction 1 as [|y s Hy Hs IH]; simpl; [apply not_elem_of_nil|].
  destruct (N.compare_spec x y) as [->|Hlt|Hgt]; [done|..];
    (rewrite elem_of_cons; intros [->|?]; [lia|done]).
Qed.

Lemma NoDup_set_erase (x : N) (s : list N) :
  NoDup s -> NoDup (set_erase N.compare x s).
Proof.
  induction 1 as [|y s Hy Hs IH]; simpl; [constructor|].
  destruct (x ?= y); [done|..];
    (constructor; [intros Hin; by apply elem_of_set_erase in Hin|done]).
Qed.

Lemma NoDup_set_insert (x : N) (s : list N) :
  x ∉ s -> NoDup s -> NoDup (set_insert N.compare x s).
Proof.
  intros Hx. induction 1 as [|y s Hy Hs IH]; simpl.
  - constructor; [apply not_elem_of_nil|constructor].
  - destruct (N.compare_spec x y) as [->|Hlt|Hgt].
    + by constructor.
    + constructor; [done|by constructor].
    + constructor.
      * rewrite elem_of_set_insert by (intros a b; apply N.compare_eq_iff).
        intros [->|?]; [lia|done].
      * apply IH. intros Hin. apply Hx. apply elem_of_cons. by right.
Qed.

Lemma contextDestroyCallback_dom w p :
  is_Some (heap (contextDestroyCallback w).1 !! p) <-> is_Some (heap w !! p).
Proof.
  pose proof (contextDestroyCallback_heap w p) as Hh.
  destruct (heap w !! p) as [o|].
  - destruct Hh as (o'&->&_). split; eauto.
  - rewrite Hh. done.
Qed.

Lemma call_registry {A} this (f : RenderTextureImplFBO -> M (A * RenderTextureImplFBO))
    w w' l :
  call this f w = Some (w', l) -> registry_ok w -> registry_ok w'.
Proof.
  intros Hc [Hnd Hreg]. apply call_Some in Hc as (o&Ho&->&_). split; [done|].
  simpl. intros p. rewrite Hreg.
  destruct (decide (p = this)) as [->|Hne].
  - rewrite lookup_insert_eq, Ho. split; eauto.
  - by rewrite lookup_insert_ne.
Qed.

Lemma step_registry op w w' l :
  step op w = Some (w', l) -> registry_ok w -> registry_ok w'.
Proof.
  destruct op as [this|this|this es width height textureId depthBuffer r
                  |this active r|this textureId| |c|c]; simpl;
    try (by apply call_registry).
  - destruct (heap w !! this) eqn:Hthis; [done|]. intros [= <- <-] [Hnd Hreg].
    assert (this ∉ frameBuffers w) as Hfresh.
    { rewrite Hreg, Hthis. by intros [? ?]. }
    split; simpl; [by apply NoDup_set_insert|].
    intros p. rewrite elem_of_set_insert by (intros a b; apply N.compare_eq_iff).
    rewrite Hreg. destruct (decide (p = this)) as [->|Hne].
    + rewrite lookup_insert_eq. split; eauto.
    + rewrite lookup_insert_ne by done. split; [intros [?|?]; done|by right].
  - destruct (heap w !! this) as [o|] eqn:Hthis; [|done].
    pose proof (destructor_unfold this o w) as Hd. simpl in Hd. rewrite Hd. clear Hd.
    intros [= <- <-] [Hnd Hreg]. simpl.
    match goal with
    | |- context [contextDestroyCallback ?w1] =>
        pose proof (contextDestroyCallback_dom w1) as Hdom;
        destruct (contextDestroyCallback_frame w1) as (Hfb&_&_)
    end.
    split; simpl; rewrite Hfb; simpl; [by apply NoDup_set_erase|].
    intros p. destruct (decide (p = this)) as [->|Hne].
    + rewrite lookup_delete_eq. split; [|by intros [? ?]].
      intros Hin. by apply not_elem_of_set_erase in Hin.
    + rewrite lookup_delete_ne by done. rewrite Hdom. simpl. rewrite <- Hreg.
      split; [apply elem_of_set_erase|intros; by apply elem_of_set_erase_ne].
  - by intros [= <- <-].
  - by intros [= <- <-].
  - unfold contextTeardown.
    match goal with
    | |- context [contextDestroyCallback ?w1] =>
        pose proof (contextDestroyCallback_dom w1) as Hdom;
        pose proof (contextDestroyCallback_frame w1) as (Hfb&_&_);
        destruct (contextDestroyCallback w1) as [w2 l2]
    end. simpl in *. intros [= <- <-] [Hnd Hreg]. split; simpl; rewrite Hfb; [done|].
    intros p. by rewrite Hdom.
Qed.

Lemma run_registry ops w w' t :
  run ops w = Some (w', t) -> registry_ok w -> registry_ok w'.
Proof.
  revert w t. induction ops as [|op ops IH]; intros w t; simpl.
  - by intros [= <- <-].
  - destruct (step op w) as [[w1 l]|] eqn:Hs; [|done].
    destruct (run ops w1) as [[w2 t']|] eqn:Hr; [|done].
    intros [= <- <-] Hreg. eapply IH; [done|]. by eapply step_registry.
Qed.

Lemma World_init_registry : registry_ok World_init.
Proof.
  split; [constructor|]. intros p. unfold World_init. simpl.
  rewrite lookup_empty. split; [by intros ?%elem_of_nil|by intros [? ?]].
Qed.

End Registry.

(** X3.  In every world the machine reaches from program start, the set
    [frameBuffers] names exactly the objects that exist, each once: the
    constructor registers, the destructor unregisters, nothing else writes
    the set.  So the callback never follows a pointer to a destroyed
    object. *)
Theorem frameBuffers_are_the_live_objects ops w t :
  run ops World_init = Some (w, t) ->
  NoDup (frameBuffers w) /\
  (forall p, p ∈ frameBuffers w <-> is_Some (heap w !! p)).
Proof. intros Hr. exact (run_registry _ _ _ _ Hr World_init_registry). Qed.

Lemma frameBuffers_are_the_live_objects_witness :
  exists w t,
    run [Construct 100; Construct 50; Destruct 100] World_init = Some (w, t) /\
    frameBuffers w = [50] /\
    (forall p, p ∈ frameBuffers w <-> is_Some (heap w !! p)).
Proof.
  assert ({wt | run [Construct 100; Construct 50; Destruct 100] World_init = Some wt})
    as [[w t] Hr].
  { eexists. vm_compute. reflexivity. }
  exists w, t. split; [exact Hr|].
  split; [vm_compute in Hr; by injection Hr as <- _|].
  exact (proj2 (frameBuffers_are_the_live_objects _ _ _ Hr)).
Defined.

Lemma contextDestroyCallback_erases_live_aux w p o :
  World_ok w -> p ∈ frameBuffers w -> heap w !! p = Some o ->
  exists o',
    heap (contextDestroyCallback w).1 !! p = Some o' /\
    map_find (activeContextId (env w)) (m_frameBuffers o') = None.
Proof.
  intros Hok Hin Ho.
  pose proof (contextDestroyCallback_heap w p) as Hh. rewrite Ho in Hh.
  destruct Hh as (o'&Ho'&_). exists o'. split; [done|].
  by eapply contextDestroyCallback_gone.
Qed.

(** X4.  The destructor's cleanup pass is the callback itself, so
    destroying one object while context [c] is current also deletes the
    framebuffer of [c] of every other registered object and erases it from
    that object's map. *)
Theorem destructor_deletes_other_owners this o q oq fb w :
  World_ok w ->
  heap w !! this = Some o ->
  q <> this -> q ∈ frameBuffers w -> heap w !! q = Some oq ->
  (activeContextId (env w), fb) ∈ m_frameBuffers oq ->
  exists w' l oq',
    step (Destruct this) w = Some (w', l) /\
    GL (activeContextId (env w)) (DeleteFramebuffers fb) ∈ l /\
    heap w' !! q = Some oq' /\
    map_find (activeContextId (env w)) (m_frameBuffers oq') = None.
Proof.
  intros Hok Hthis Hne Hq Hoq Hfb.
  pose proof (destructor_unfold this o w) as Hd. simpl in Hd.
  set (w1 := mkWorld (env w) (set_erase N.compare this (frameBuffers w))
               (moveToStale (m_frameBuffers o) (staleFrameBuffers w)) (heap w)) in *.
  assert (q ∈ frameBuffers w1) as Hq1 by (by apply elem_of_set_erase_ne).
  assert (World_ok w1) as Hok1 by exact Hok.
  destruct (contextDestroyCallback_erases_live_aux w1 q oq Hok1 Hq1 Hoq) as (oq'&Hoq'&Hnone).
  exists (set_heap (delete this (heap (destructor this o w).1)) (destructor this o w).1),
         (destructor this o w).2, oq'.
  split; [by apply step_Destruct|]. rewrite Hd. simpl.
  split_and!.
  - rewrite !elem_of_app. right. left.
    apply (contextDestroyCallback_live w1 q oq fb Hq1 Hoq); [by eapply Hok|done].
  - by rewrite lookup_delete_ne.
  - done.
Qed.

Lemma destructor_deletes_other_owners_witness :
  exists w' l oq',
    step (Destruct 100) two_owners = Some (w', l) /\
    GL 1 (DeleteFramebuffers 4) ∈ l /\
    heap w' !! 200 = Some oq' /\
    map_find 1 (m_frameBuffers oq') = None.
Proof.
  assert (200 ∈ frameBuffers two_owners) as Hin.
  { apply elem_of_cons. right. apply elem_of_cons. by left. }
  assert ((1, 4) ∈ m_frameBuffers (mkFBO None 0 9 [(1, 4)])) as Hfb.
  { apply elem_of_cons. by left. }
  assert (200 <> 100) as Hne by discriminate.
  exact (destructor_deletes_other_owners 100 (mkFBO None 0 7 [(1, 5); (2, 6)])
           200 (mkFBO None 0 9 [(1, 4)]) 4 two_owners two_owners_ok eq_refl
           Hne Hin eq_refl Hfb).
Defined.

(** ** The stale set *)

(** X5.  No step of the machine removes an entry from
    [staleFrameBuffers]: the destructor adds to the set and nothing in the
    file erases from it, so an entry once there is there after any run. *)
Theorem staleFrameBuffers_only_grows ops w w' t x :
  run ops w = Some (w', t) ->
  x ∈ staleFrameBuffers w ->
  x ∈ staleFrameBuffers w' /\
  x ∈ staleFrameBuffers (contextDestroyCallback w').1.
Proof.
  intros Hr Hx. pose proof (run_stale _ _ _ _ _ Hr Hx) as Hx'. split; [done|].
  destruct (contextDestroyCallback_frame w') as (_&->&_). done.
Qed.

Lemma staleFrameBuffers_only_grows_witness :
  exists w' t,
    run [MakeCurrent 1; ContextDestroyed 1; MakeCurrent 3; ContextDestroyed 3] two_owners
      = Some (w', t) /\
    (1, 7) ∈ staleFrameBuffers w'.
Proof.
  assert ({wt | run [MakeCurrent 1; ContextDestroyed 1; MakeCurrent 3; ContextDestroyed 3]
                    two_owners = Some wt}) as [[w' t] Hr].
  { eexists. vm_compute. reflexivity. }
  exists w', t. split; [exact Hr|].
  refine (proj1 (staleFrameBuffers_only_grows _ _ _ _ (1, 7) Hr _)).
  apply elem_of_cons. by left.
Defined.

(** ** Creation followed by activation *)

Section CreateThenActivate.

Lemma map_find_insert_is_Some k v m : is_Some (map_find k (map_insert k v m)).
Proof.
  induction m as [|[k' v'] m IH]; simpl.
  - rewrite N.eqb_refl. eauto.
  - destruct (N.compare_spec k k') as [->|Hlt|Hgt]; simpl.
    + rewrite N.eqb_refl. eauto.
    + rewrite N.eqb_refl. eauto.
    + destruct (N.eqb_spec k' k); [lia|done].
Qed.

Lemma map_find_insert_ne k k0 v0 m :
  k <> k0 -> map_find k (map_insert k0 v0 m) = map_find k m.
Proof.
  intros Hne. induction m as [|[k' v'] m IH]; simpl.
  - destruct (N.eqb_spec k0 k); [congruence|done].
  - destruct (N.compare_spec k0 k') as [->|Hlt|Hgt]; simpl.
    + done.
    + destruct (N.eqb_spec k0 k); [congruence|done].
    + destruct (k' =? k); [done|apply IH].
Qed.

Lemma elem_of_map_insert_keep k v m x : x ∈ m -> x ∈ map_insert k v m.
Proof.
  induction m as [|[k' v'] m IH]; simpl; [by intros ?%elem_of_nil|].
  destruct (k ?= k'); rewrite !elem_of_cons; intuition.
Qed.

(** [std::map::insert] neither replaces nor removes. *)
Lemma map_find_insert_keep k v k0 v0 m :
  map_ok m -> map_find k m = Some v -> map_find k (map_insert k0 v0 m) = Some v.
Proof.
  intros Hok Hf. apply elem_map_find; [by apply map_insert_ok|].
  apply elem_of_map_insert_keep. by apply map_find_elem.
Qed.

Lemma create_active es width height textureId depthBuffer r this e :
  activeContextId (create es width height textureId depthBuffer r this e).1.2
  = activeContextId e.
Proof.
  unfold create. unfold_m.
  destruct depthBuffer; simpl; [destruct (genRenderbuffer r =? 0); simpl; [done|]|];
    (destruct (activeContextId e =? 0); simpl; [done|]);
    destruct es; simpl;
    match goal with
    | |- context [createFrameBuffer r ?o e] =>
        pose proof (createFrameBuffer_active r o e) as Ha;
        destruct (createFrameBuffer r o e) as [[[[] o'] e'] l']; simpl in *; done
    end.
Qed.

(** A [create] that returns [true] with a context current has gone through
    a successful [createFrameBuffer]. *)
Lemma create_success es width height textureId depthBuffer r this e this1 e1 l1 :
  activeContextId e <> 0 ->
  create es width height textureId depthBuffer r this e = ((true, this1), e1, l1) ->
  m_frameBuffers this1 =
    map_insert (activeContextId e) (genFramebuffer r) (m_frameBuffers this).
Proof.
  intros Ha. apply N.eqb_neq in Ha. unfold create. unfold_m.
  destruct depthBuffer; simpl; [destruct (genRenderbuffer r =? 0); simpl; [done|]|];
    rewrite Ha; simpl; destruct es; simpl;
    match goal with
    | |- context [createFrameBuffer r ?o e] =>
        destruct (createFrameBuffer_cases r o e) as [H|H];
        destruct (createFrameBuffer r o e) as [[[ok o'] e'] l'];
        simpl in H; injection H as -> ->; simpl; [done|];
        intros [= <- _ _]; done
    end.
Qed.

End CreateThenActivate.

(** X6.  When [create] succeeds with a context current, the map holds a
    framebuffer for that context (the one just generated, when the map had
    none), and an [activate(true)] that follows binds it and generates
    nothing. *)
Theorem create_then_activate es width height textureId depthBuffer r this e this1 e1 l1 :
  activeContextId e <> 0 ->
  create es width height textureId depthBuffer r this e = ((true, this1), e1, l1) ->
  exists fb,
    map_find (activeContextId e) (m_frameBuffers this1) = Some fb /\
    (map_find (activeContextId e) (m_frameBuffers this) = None ->
     fb = genFramebuffer r) /\
    forall r2,
      activate true r2 this1 e1 =
      ((true, this1), setBindings (mkBindings fb fb) e1,
       [GL (activeContextId e) (BindFramebuffer GL_FRAMEBUFFER fb)]).
Proof.
  intros Ha Hc. pose proof (create_success _ _ _ _ _ _ _ _ _ _ _ Ha Hc) as Hm.
  pose proof (create_active es width height textureId depthBuffer r this e) as He.
  rewrite Hc in He. simpl in He.
  destruct (map_find_insert_is_Some (activeContextId e) (genFramebuffer r)
              (m_frameBuffers this)) as [fb Hfb].
  exists fb. rewrite Hm. split; [done|]. split.
  - intros Hnone. rewrite (map_find_insert _ _ _ Hnone) in Hfb. congruence.
  - intros r2. rewrite activate_with_context by congruence.
    rewrite He. rewrite <- Hm in Hfb.
    rewrite (lookupOrCreate_found _ _ _ _ _ Hfb). by rewrite He.
Qed.

Lemma create_then_activate_witness :
  exists this1 e1 l1,
    create false 64 64 7 true driver_ok fresh env_bound = ((true, this1), e1, l1) /\
    (activate true driver_ok this1 e1).2 = [GL 1 (BindFramebuffer GL_FRAMEBUFFER 5)].
Proof.
  assert ({x | create false 64 64 7 true driver_ok fresh env_bound = x}) as [[[[ok this1] e1] l1] Hc].
  { eexists. reflexivity. }
  assert (ok = true) as -> by (vm_compute in Hc; congruence).
  exists this1, e1, l1. split; [exact Hc|].
  assert (activeContextId env_bound <> 0) as Ha by discriminate.
  destruct (create_then_activate _ _ _ _ _ _ _ _ _ _ _ Ha Hc) as (fb&_&Hfb&Hact).
  rewrite (Hact driver_ok). rewrite (Hfb eq_refl). reflexivity.
Defined.

(** ** Deactivation *)

(** X7.  [activate(false)] after a successful [activate(true)] only
    unbinds: it returns [true], binds framebuffer 0, and leaves the object
    as it is; the next [activate(true)] under the same context binds the
    same framebuffer again and generates nothing. *)
Theorem deactivate_keeps_framebuffer r1 r2 r3 o e o1 e1 l1 :
  activate true r1 o e = ((true, o1), e1, l1) ->
  exists fb,
    bindingsOf (activeContextId e1) e1 = mkBindings fb fb /\
    activate false r2 o1 e1 =
      ((true, o1), setBindings (mkBindings 0 0) e1,
       [GL (activeContextId e1) (BindFramebuffer GL_FRAMEBUFFER 0)]) /\
    activate true r3 o1 (setBindings (mkBindings 0 0) e1) =
      ((true, o1), setBindings (mkBindings fb fb) (setBindings (mkBindings 0 0) e1),
       [GL (activeContextId e1) (BindFramebuffer GL_FRAMEBUFFER fb)]).
Proof.
  intros Hact. apply activate_true in Hact as (Ha&fb&Hf&Hb).
  exists fb. split; [done|]. split; [done|].
  rewrite activate_with_context by done. simpl.
  by rewrite (lookupOrCreate_found _ _ _ _ _ Hf).
Qed.

Lemma deactivate_keeps_framebuffer_witness :
  exists o1 e1 l1,
    activate true driver_ok fresh env_bound = ((true, o1), e1, l1) /\
    (activate true driver_incomplete o1 (setBindings (mkBindings 0 0) e1)).2 =
      [GL 1 (BindFramebuffer GL_FRAMEBUFFER 5)].
Proof.
  assert ({x | activate true driver_ok fresh env_bound = x}) as [[[[ok o1] e1] l1] Hc].
  { eexists. reflexivity. }
  assert (ok = true) as -> by (vm_compute in Hc; congruence).
  exists o1, e1, l1. split; [exact Hc|].
  destruct (deactivate_keeps_framebuffer driver_ok driver_ok driver_incomplete
              _ _ _ _ _ Hc) as (fb&Hb&_&Hre).
  rewrite Hre. vm_compute in Hc. injection Hc as _ <- _.
  vm_compute in Hb. injection Hb as <-. reflexivity.
Defined.

(** ** Allocation failures *)

(** X8.  When a depth buffer is asked for and the driver allocates none,
    [create] returns [false] at once: the only driver call is the failed
    allocation, the texture identifier is not stored, the map and the
    environment are as they were, and no framebuffer is generated, with or
    without a context current. *)
Theorem create_depth_allocation_failure es width height textureId r this e :
  genRenderbuffer r = 0 ->
  create es width height textureId true r this e =
    ((false, set_depthBuffer 0 this), e,
     [GL (activeContextId e) (GenRenderbuffers 0); Err FailedDepthBuffer]) /\
  m_textureId (create es width height textureId true r this e).1.1.2 = m_textureId this /\
  m_frameBuffers (create es width height textureId true r this e).1.1.2 =
    m_frameBuffers this.
Proof.
  intros Hd.
  assert (create es width height textureId true r this e =
    ((false, set_depthBuffer 0 this), e,
     [GL (activeContextId e) (GenRenderbuffers 0); Err FailedDepthBuffer])) as Heq.
  { unfold create. unfold_m. simpl. rewrite Hd. reflexivity. }
  rewrite Heq. done.
Qed.

Lemma create_depth_allocation_failure_witness :
  genRenderbuffer (mkResponses 9 true 0 5 true) = 0 /\
  create false 64 64 7 true (mkResponses 9 true 0 5 true) fresh env_bound =
    ((false, fresh), env_bound,
     [GL 1 (GenRenderbuffers 0); Err FailedDepthBuffer]).
Proof.
  split; [reflexivity|].
  exact (proj1 (create_depth_allocation_failure false 64 64 7
                  (mkResponses 9 true 0 5 true) fresh env_bound eq_refl)).
Defined.

(** X9.  When [activate(true)] finds no framebuffer for the current
    context and the driver allocates none, it returns [false] having
    called the driver for the allocation only: nothing is bound, nothing
    deleted, the object and the environment are as they were; a later
    [activate(true)] with a driver that delivers succeeds and inserts the
    entry. *)
Theorem activate_allocation_failure r o e :
  activeContextId e <> 0 ->
  map_find (activeContextId e) (m_frameBuffers o) = None ->
  genFramebuffer r = 0 ->
  activate true r o e =
    ((false, o), e,
     [GL (activeContextId e) (GenFramebuffers 0); Err FailedFrameBufferObject]) /\
  forall r',
    genFramebuffer r' <> 0 -> statusComplete r' = true ->
    (activate true r' o e).1.1 =
    (true, set_frameBuffers
             (map_insert (activeContextId e) (genFramebuffer r') (m_frameBuffers o)) o).
Proof.
  intros Ha Hnone Hg. split.
  - rewrite activate_with_context by done. rewrite lookupOrCreate_missing by done.
    by apply createFrameBuffer_alloc_failure.
  - intros r' Hg' Hc'. rewrite activate_with_context by done.
    rewrite lookupOrCreate_missing by done. by rewrite createFrameBuffer_success.
Qed.

Lemma activate_allocation_failure_witness :
  activate true (mkResponses 9 true 3 0 true) fresh env_bound =
    ((false, fresh), env_bound,
     [GL 1 (GenFramebuffers 0); Err FailedFrameBufferObject]).
Proof.
  assert (activeContextId env_bound <> 0) as Ha by discriminate.
  exact (proj1 (activate_allocation_failure (mkResponses 9 true 3 0 true) fresh
                  env_bound Ha eq_refl eq_refl)).
Defined.

(** ** What the member functions never do to the map *)

(** X10.  Neither [activate] nor [create] ever removes an entry from the
    object's map or replaces the framebuffer of an entry, whatever the
    arguments, the current context and the driver's answers: what [find]
    returned before the call it returns after it. *)
Theorem entries_are_never_replaced o k v :
  map_ok (m_frameBuffers o) ->
  map_find k (m_frameBuffers o) = Some v ->
  (forall active r e,
     map_find k (m_frameBuffers (activate active r o e).1.1.2) = Some v) /\
  (forall es width height textureId depthBuffer r e,
     map_find k
       (m_frameBuffers (create es width height textureId depthBuffer r o e).1.1.2)
     = Some v).
Proof.
  intros Hok Hf. split.
  - intros active r e.
    destruct (activate_object active r o e) as [-> |[c ->]];
      [done|by apply map_find_insert_keep].
  - intros es width height textureId depthBuffer r e.
    destruct (create_object es width height textureId depthBuffer r o e) as [_ [-> | ->]];
      [done|by apply map_find_insert_keep].
Qed.

Lemma entries_are_never_replaced_witness :
  map_ok (m_frameBuffers equipped) /\
  map_find 9 (m_frameBuffers equipped) = Some 5 /\
  map_find 9
    (m_frameBuffers
       (create false 64 64 7 false (mkResponses 9 true 3 6 true) equipped
          (mkEnv 9 ∅)).1.1.2) = Some 5.
Proof.
  assert (map_ok (m_frameBuffers equipped)) as Hok by exact I.
  split; [exact Hok|]. split; [reflexivity|].
  exact (proj2 (entries_are_never_replaced equipped 9 5 Hok eq_refl)
           false 64 64 7 false (mkResponses 9 true 3 6 true) (mkEnv 9 ∅)).
Defined.

(** ** The compile-time switch *)

(** X11.  [SFML_OPENGL_ES] changes which bindings [create] queries and
    restores, and nothing else: the value returned and the object are the
    same with and without it, and neither variant changes the current
    context. *)
Theorem create_outcome_independent_of_backend width height textureId depthBuffer r this e :
  (create true width height textureId depthBuffer r this e).1.1 =
  (create false width height textureId depthBuffer r this e).1.1 /\
  (forall es,
     activeContextId (create es width height textureId depthBuffer r this e).1.2 =
     activeContextId e).
Proof.
  split; [|intros es; apply create_active].
  unfold create. unfold_m.
  destruct depthBuffer; simpl; [destruct (genRenderbuffer r =? 0); simpl; [done|]|];
    (destruct (activeContextId e =? 0); simpl; [done|]);
    match goal with
    | |- context [createFrameBuffer r ?o e] =>
        destruct (createFrameBuffer r o e) as [[[[] o'] e'] l']; simpl; done
    end.
Qed.

(** ** What the destructor releases *)

Section Release.

Lemma filter_none {A} (f : A -> bool) (l : list A) :
  (forall x, x ∈ l -> f x = false) -> filter f l = [].
Proof.
  induction l as [|x l IH]; intros H; [done|].
  rewrite filter_cons_False.
  - apply IH. intros y Hy. apply H. apply elem_of_cons. by right.
  - rewrite (H x) by (apply elem_of_cons; by left). intros Hf. exact Hf.
Qed.

Lemma contextDestroyCallback_only_deletes w (f : Event -> bool) :
  (forall k fb, f (GL k (DeleteFramebuffers fb)) = false) ->
  filter f (contextDestroyCallback w).2 = [].
Proof.
  intros Hf. apply filter_none. intros ev Hin.
  apply contextDestroyCallback_sound in Hin as (fb&->&_). apply Hf.
Qed.

End Release.

(** X12.  The destructor deletes the depth renderbuffer exactly once when
    the object has one and never otherwise, and hands the backup context
    back exactly once when the object has one and never otherwise; the
    context goes last, after every framebuffer deletion of the cleanup
    pass. *)
Theorem destructor_releases_once this o w :
  length (filter isDeleteRenderbuffers (destructor this o w).2) =
    (if m_depthBuffer o =? 0 then 0%nat else 1%nat) /\
  (m_depthBuffer o <> 0 ->
   GL (activeContextId (env w)) (DeleteRenderbuffers (m_depthBuffer o))
     ∈ (destructor this o w).2) /\
  length (filter isDeleteContext (destructor this o w).2) =
    match m_context o with Some _ => 1%nat | None => 0%nat end /\
  (forall b, m_context o = Some b -> last (destructor this o w).2 = Some (DeleteContext b)).
Proof.
  pose proof (destructor_unfold this o w) as Hd. simpl in Hd. rewrite Hd. clear Hd.
  cbn [snd]. rewrite !filter_app, !length_app.
  rewrite !contextDestroyCallback_only_deletes by done. simpl.
  split_and!.
  - destruct (m_depthBuffer o =? 0); destruct (m_context o); reflexivity.
  - intros Hne. apply N.eqb_neq in Hne. rewrite Hne. apply elem_of_app. left.
    apply elem_of_cons. by left.
  - destruct (m_depthBuffer o =? 0); destruct (m_context o); reflexivity.
  - intros b ->. by rewrite !app_assoc, last_snoc.
Qed.

(** ** Activation after the callback *)

(** X13.  An object whose framebuffer of context [c] the callback has
    deleted (at the teardown of [c], or from another object's destructor)
    stays usable: its next [activate(true)] under [c], with a driver that
    delivers, generates a new framebuffer, binds it and enters it in the
    map. *)
Theorem activate_after_callback_recreates w p o' r e :
  World_ok w -> p ∈ frameBuffers w ->
  heap (contextDestroyCallback w).1 !! p = Some o' ->
  activeContextId (env w) <> 0 ->
  activeContextId e = activeContextId (env w) ->
  genFramebuffer r <> 0 -> statusComplete r = true ->
  activate true r o' e =
    ((true, set_frameBuffers
              (map_insert (activeContextId e) (genFramebuffer r) (m_frameBuffers o')) o'),
     setBindings (mkBindings (genFramebuffer r) (genFramebuffer r)) e,
     GL (activeContextId e) (GenFramebuffers (genFramebuffer r)) ::
     GL (activeContextId e) (BindFramebuffer GL_FRAMEBUFFER (genFramebuffer r)) ::
     attachments (activeContextId e) o' ++
     [GL (activeContextId e) (CheckFramebufferStatus true)]) /\
  map_find (activeContextId e)
    (map_insert (activeContextId e) (genFramebuffer r) (m_frameBuffers o'))
  = Some (genFramebuffer r).
Proof.
  intros Hok Hin Ho' Ha He Hg Hc.
  pose proof (contextDestroyCallback_gone w p o' Hok Hin Ho') as Hnone.
  rewrite <- He in Hnone. split; [|by apply map_find_insert].
  rewrite activate_with_context by congruence.
  rewrite lookupOrCreate_missing by done. by apply createFrameBuffer_success.
Qed.

Lemma activate_after_callback_recreates_witness :
  exists o',
    heap (contextDestroyCallback two_owners).1 !! 100 = Some o' /\
    (activate true driver_ok o' (mkEnv 1 ∅)).1.1 =
      (true, mkFBO None 0 7 [(1, 5); (2, 6)]).
Proof.
  assert ({x | heap (contextDestroyCallback two_owners).1 !! 100 = x}) as [[o'|] Ho'];
    [eexists; reflexivity| |vm_compute in Ho'; discriminate].
  exists o'. split; [exact Ho'|].
  assert (100 ∈ frameBuffers two_owners) as Hin by (apply elem_of_cons; by left).
  assert (activeContextId (env two_owners) <> 0) as Ha by discriminate.
  assert (genFramebuffer driver_ok <> 0) as Hg by discriminate.
  destruct (activate_after_callback_recreates two_owners 100 o' driver_ok (mkEnv 1 ∅)
              two_owners_ok Hin Ho' Ha eq_refl Hg eq_refl) as [Hact _].
  rewrite Hact. vm_compute in Ho'. injection Ho' as <-. reflexivity.
Defined.

(** ** Activation on the backup context *)

(** X14.  When [activate(true)] is entered with no context current and
    returns [true], the backup context has become the current one, the
    object holds it, and the framebuffer that is bound is entered in the
    map under the backup context's identifier. *)
Theorem activate_on_backup_context r o e o1 e1 l1 :
  activeContextId e = 0 ->
  activate true r o e = ((true, o1), e1, l1) ->
  setActiveOk r = true /\
  backupContext r o <> 0 /\
  activeContextId e1 = backupContext r o /\
  m_context o1 = Some (backupContext r o) /\
  exists fb,
    map_find (backupContext r o) (m_frameBuffers o1) = Some fb /\
    bindingsOf (backupContext r o) e1 = mkBindings fb fb.
Proof.
  intros Ha Hact.
  destruct (decide (setActiveOk r = true /\ backupContext r o <> 0)) as [[Hok Hb]|Hn].
  - split; [done|]. split; [done|].
    rewrite activate_backup_success in Hact by done. simpl in Hact.
    set (o0 := set_context _ o) in Hact. set (e0 := setActiveContextId _ e) in Hact.
    destruct (lookupOrCreate _ r o0 e0) as [[[ok o'] e'] l'] eqn:Hl. simpl in Hact.
    injection Hact as -> -> -> _.
    change (backupContext r o) with (activeContextId e0) in Hl.
    apply lookupOrCreate_true in Hl as (He&Hc&fb&Hf&Hbind).
    split; [done|]. split; [done|]. eauto.
  - rewrite activate_backup_failure in Hact; [done|done|].
    destruct (setActiveOk r); [right|by left].
    destruct (decide (backupContext r o = 0)); [done|]. exfalso. by apply Hn.
Qed.

Lemma activate_on_backup_context_witness :
  exists o1 e1 l1,
    activate true driver_ok fresh (mkEnv 0 ∅) = ((true, o1), e1, l1) /\
    activeContextId e1 = 9 /\ m_context o1 = Some 9.
Proof.
  assert ({x | activate true driver_ok fresh (mkEnv 0 ∅) = x}) as [[[[ok o1] e1] l1] Hc].
  { eexists. reflexivity. }
  assert (ok = true) as -> by (vm_compute in Hc; congruence).
  exists o1, e1, l1. split; [exact Hc|].
  destruct (activate_on_backup_context driver_ok fresh (mkEnv 0 ∅) _ _ _ eq_refl Hc)
    as (_&_&He&Ho&_).
  split; [exact He|exact Ho].
Defined.

(** ** The life of a framebuffer *)

Section Lifetimes.

Lemma elem_of_addGenerated seen l x :
  x ∈ addGenerated seen l <-> x ∈ seen \/ GL x.1 (GenFramebuffers x.2) ∈ l.
Proof.
  revert seen. induction l as [|ev l IH]; intros seen; simpl.
  - rewrite elem_of_nil. tauto.
  - destruct ev as [k []| | | | |]; rewrite IH, ?elem_of_cons;
      try (split; [intros [?|?]; [by left|by right; right]
                  |intros [?|[?|?]]; [by left|discriminate|by right]]).
    destruct x as [xk xfb]. simpl. split.
    + intros [[[= -> ->]|?]|?]; [right; by left|by left|right; by right].
    + intros [?|[[= -> ->]|?]]; [left; by right|left; by left|by right].
Qed.

Lemma addGenerated_app seen l1 l2 :
  addGenerated seen (l1 ++ l2) = addGenerated (addGenerated seen l1) l2.
Proof.
  revert seen. induction l1 as [|ev l1 IH]; intros seen; simpl; [done|].
  destruct ev as [k []| | | | |]; apply IH.
Qed.

Lemma deletesGenerated_app seen l1 l2 :
  deletesGenerated seen (l1 ++ l2) =
  deletesGenerated seen l1 && deletesGenerated (addGenerated seen l1) l2.
Proof.
  revert seen. induction l1 as [|ev l1 IH]; intros seen; simpl; [done|].
  destruct ev as [k []| | | | |]; rewrite ?IH, ?andb_assoc; done.
Qed.

Lemma deletesGenerated_mono seen seen' l :
  (forall x, x ∈ seen -> x ∈ seen') ->
  deletesGenerated seen l = true -> deletesGenerated seen' l = true.
Proof.
  revert seen seen'. induction l as [|ev l IH]; intros seen seen' Hsub; simpl; [done|].
  destruct ev as [k []| | | | |]; try (by apply IH).
  - apply IH. intros x. rewrite !elem_of_cons. intros [?|?]; [by left|right; by apply Hsub].
  - intros [Hin Hl]%andb_prop. apply bool_decide_eq_true in Hin.
    rewrite (IH _ _ Hsub Hl), andb_true_r. apply bool_decide_eq_true. by apply Hsub.
Qed.

Lemma neutral_deletes seen l : neutral l = true -> deletesGenerated seen l = true.
Proof.
  unfold neutral. induction l as [|ev l IH]; simpl; [done|].
  intros [Hev Hl]%andb_prop. destruct ev as [k []| | | | |]; try discriminate; by apply IH.
Qed.

Lemma neutral_adds seen l : neutral l = true -> addGenerated seen l = seen.
Proof.
  unfold neutral. induction l as [|ev l IH]; simpl; [done|].
  intros [Hev Hl]%andb_prop. destruct ev as [k []| | | | |]; try discriminate; by apply IH.
Qed.

Lemma deletes_of_seen seen l :
  (forall ev, ev ∈ l -> exists k fb, ev = GL k (DeleteFramebuffers fb) /\ (k, fb) ∈ seen) ->
  deletesGenerated seen l = true /\ addGenerated seen l = seen.
Proof.
  induction l as [|ev l IH]; intros H; simpl; [done|].
  destruct (H ev) as (k&fb&->&Hin); [apply elem_of_cons; by left|].
  destruct IH as [Hd Ha].
  { intros ev' Hev'. apply H. apply elem_of_cons. by right. }
  rewrite Hd, Ha. split; [|done]. rewrite andb_true_r. by apply bool_decide_eq_true.
Qed.

Lemma deletesGenerated_split seen l1 l2 k fb :
  deletesGenerated seen (l1 ++ GL k (DeleteFramebuffers fb) :: l2) = true ->
  (k, fb) ∈ seen \/ GL k (GenFramebuffers fb) ∈ l1.
Proof.
  rewrite deletesGenerated_app. intros [_ H]%andb_prop. simpl in H.
  apply andb_prop in H as [H _]. apply bool_decide_eq_true in H.
  by apply elem_of_addGenerated in H.
Qed.

Lemma attachments_neutral a o : neutral (attachments a o) = true.
Proof. unfold attachments. by destruct (m_depthBuffer o =? 0). Qed.

Lemma allocation_neutral r o : neutral (allocation r o) = true.
Proof. unfold allocation. by destruct (m_context o). Qed.

Lemma keepsLifetimes_neutral m l : neutral l = true -> keepsLifetimes m m l.
Proof. intros Hn seen. split; [by apply neutral_deletes|]. intros x. by left. Qed.

Lemma createFrameBuffer_lifetimes r o e :
  keepsLifetimes (m_frameBuffers o)
    (m_frameBuffers (createFrameBuffer r o e).1.1.2) (createFrameBuffer r o e).2.
Proof.
  intros seen. destruct (N.eqb_spec (genFramebuffer r) 0) as [Hg|Hg].
  { rewrite createFrameBuffer_alloc_failure by done. simpl. split; [done|]. by left. }
  destruct (statusComplete r) eqn:Hc.
  - rewrite createFrameBuffer_success by done. cbn [fst snd]. split.
    + simpl. rewrite deletesGenerated_app, neutral_deletes by apply attachments_neutral.
      done.
    + intros x Hx. simpl in Hx. apply elem_of_map_insert in Hx as [->|Hx]; [|by left].
      right. apply elem_of_addGenerated. right. apply elem_of_cons. by left.
  - destruct (createFrameBuffer_incomplete_eq r o e Hg Hc) as (e'&->&_). cbn [fst snd].
    split; [|by left]. rewrite deletesGenerated_app. simpl.
    rewrite deletesGenerated_app, neutral_deletes by apply attachments_neutral.
    rewrite addGenerated_app, neutral_adds by apply attachments_neutral. simpl.
    rewrite bool_decide_eq_true_2; [done|]. apply elem_of_cons. by left.
Qed.

Lemma lookupOrCreate_lifetimes c r o e :
  keepsLifetimes (m_frameBuffers o)
    (m_frameBuffers (lookupOrCreate c r o e).1.1.2) (lookupOrCreate c r o e).2.
Proof.
  unfold lookupOrCreate. destruct (map_find c (m_frameBuffers o)).
  - by apply keepsLifetimes_neutral.
  - apply createFrameBuffer_lifetimes.
Qed.

Lemma activate_lifetimes active r o e :
  keepsLifetimes (m_frameBuffers o)
    (m_frameBuffers (activate active r o e).1.1.2) (activate active r o e).2.
Proof.
  destruct active.
  2:{ by apply keepsLifetimes_neutral. }
  destruct (N.eqb_spec (activeContextId e) 0) as [Ha|Ha].
  2:{ rewrite activate_with_context by done. apply lookupOrCreate_lifetimes. }
  destruct (decide (setActiveOk r = true /\ backupContext r o <> 0)) as [[Hok Hb]|Hn].
  - rewrite activate_backup_success by done. cbn [fst snd].
    pose proof (lookupOrCreate_lifetimes (backupContext r o) r
                  (set_context (Some (backupContext r o)) o)
                  (setActiveContextId (backupContext r o) e)) as H.
    intros seen. destruct (H (addGenerated seen (allocation r o))) as [Hd Hx].
    rewrite deletesGenerated_app, addGenerated_app.
    rewrite neutral_deletes by apply allocation_neutral.
    rewrite neutral_adds in * by apply allocation_neutral. simpl. done.
  - rewrite activate_backup_failure; [|done|].
    2:{ destruct (setActiveOk r); [right|by left].
        destruct (decide (backupContext r o = 0)); [done|]. exfalso. by apply Hn. }
    cbn [fst snd]. intros seen. split; [|by left].
    rewrite deletesGenerated_app, neutral_deletes by apply allocation_neutral. done.
Qed.

Lemma create_lifetimes es width height textureId depthBuffer r o e :
  keepsLifetimes (m_frameBuffers o)
    (m_frameBuffers (create es width height textureId depthBuffer r o e).1.1.2)
    (create es width height textureId depthBuffer r o e).2.
Proof.
  unfold create. unfold_m.
  destruct depthBuffer; simpl; [destruct (genRenderbuffer r =? 0); simpl|];
    try (by apply keepsLifetimes_neutral);
    (destruct (activeContextId e =? 0); simpl; [by apply keepsLifetimes_neutral|]);
    destruct es; simpl;
    match goal with
    | |- context [createFrameBuffer r ?o2 e] =>
        pose proof (createFrameBuffer_lifetimes r o2 e) as H;
        destruct (createFrameBuffer r o2 e) as [[[[] o'] e'] l']; simpl in *
    end;
    intros seen; destruct (H seen) as [Hd Hx]; simpl;
    rewrite ?app_nil_r, ?deletesGenerated_app, ?addGenerated_app, Hd; simpl; done.
Qed.

Lemma contextDestroyCallback_tracked seen w :
  tracked seen w ->
  deletesGenerated seen (contextDestroyCallback w).2 = true /\
  addGenerated seen (contextDestroyCallback w).2 = seen /\
  tracked seen (contextDestroyCallback w).1.
Proof.
  intros [Hmaps Hstale].
  destruct (deletes_of_seen seen (contextDestroyCallback w).2) as [Hd Ha].
  { intros ev Hev. apply contextDestroyCallback_sound in Hev as (fb&->&[(p&o&_&Ho&Hin)|Hin]).
    - eexists _, _. split; [done|]. by eapply Hmaps.
    - eexists _, _. split; [done|]. by apply Hstale. }
  split; [done|]. split; [done|]. split.
  - intros p o' x Ho' Hx. pose proof (contextDestroyCallback_heap w p) as Hh.
    destruct (heap w !! p) as [o|] eqn:Ho; [|congruence].
    destruct Hh as (o''&Ho''&(_&_&_&Hsub&_)).
    assert (o'' = o') as -> by congruence. eapply Hmaps; [done|]. by apply Hsub.
  - intros x. destruct (contextDestroyCallback_frame w) as (_&->&_). apply Hstale.
Qed.

Lemma call_tracked {A} this (f : RenderTextureImplFBO -> M (A * RenderTextureImplFBO))
    seen w w' l :
  (forall o e, keepsLifetimes (m_frameBuffers o) (m_frameBuffers (f o e).1.1.2)
                 (f o e).2) ->
  call this f w = Some (w', l) -> tracked seen w ->
  deletesGenerated seen l = true /\ tracked (addGenerated seen l) w'.
Proof.
  intros Hf Hc [Hmaps Hstale]. apply call_Some in Hc as (o&Ho&->&->).
  destruct (Hf o (env w) seen) as [Hd Hx]. split; [done|].
  assert (forall x, x ∈ seen -> x ∈ addGenerated seen (f o (env w)).2) as Hup.
  { intros x Hin. apply elem_of_addGenerated. by left. }
  split; simpl.
  - intros p o' x Hp Hin. apply lookup_insert_Some in Hp as [[_ <-]|[_ Hp]].
    + destruct (Hx x Hin) as [?|?]; [|done]. apply Hup. by eapply Hmaps.
    + apply Hup. by eapply Hmaps.
  - intros x Hin. apply Hup. by apply Hstale.
Qed.

Lemma step_tracked op seen w w' l :
  step op w = Some (w', l) -> tracked seen w ->
  deletesGenerated seen l = true /\ tracked (addGenerated seen l) w'.
Proof.
  destruct op as [this|this|this es width height textureId depthBuffer r
                  |this active r|this textureId| |c|c]; simpl.
  - destruct (heap w !! this) eqn:Hthis; [done|]. intros [= <- <-] [Hmaps Hstale].
    split; [done|]. split; simpl; [|done].
    intros p o x Hp Hin. apply lookup_insert_Some in Hp as [[_ <-]|[_ Hp]].
    + by apply elem_of_nil in Hin.
    + by eapply Hmaps.
  - destruct (heap w !! this) as [o|] eqn:Hthis; [|done].
    pose proof (destructor_unfold this o w) as Hd. simpl in Hd. rewrite Hd. clear Hd.
    intros [= <- <-] [Hmaps Hstale].
    match goal with
    | |- context [contextDestroyCallback ?w1] =>
        destruct (contextDestroyCallback_tracked seen w1) as (Hd&Ha&[Hmaps' Hstale'])
    end.
    { split; simpl; [done|]. intros x [Hx|Hx]%elem_of_moveToStale;
        [by eapply Hmaps|by apply Hstale]. }
    assert (forall d, neutral (if m_depthBuffer o =? 0 then []
              else [GL d (DeleteRenderbuffers (m_depthBuffer o))]) = true) as Hn1
      by (intros; by destruct (m_depthBuffer o =? 0)).
    assert (neutral (match m_context o with Some c => [DeleteContext c] | None => [] end)
            = true) as Hn2 by (by destruct (m_context o)).
    rewrite !deletesGenerated_app, !addGenerated_app.
    rewrite (neutral_adds _ _ (Hn1 _)), (neutral_deletes _ _ (Hn1 _)).
    rewrite Ha, Hd, (neutral_adds _ _ Hn2), (neutral_deletes _ _ Hn2).
    split; [done|]. split; simpl; [|done].
    intros p o' x Hp Hin. apply lookup_delete_Some in Hp as [_ Hp]. by eapply Hmaps'.
  - apply call_tracked. intros; apply create_lifetimes.
  - apply call_tracked. intros; apply activate_lifetimes.
  - apply call_tracked. intros o e. by apply keepsLifetimes_neutral.
  - by intros [= <- <-].
  - by intros [= <- <-].
  - unfold contextTeardown. intros Hs Ht.
    match type of Hs with
    | context [contextDestroyCallback ?w1] =>
        destruct (contextDestroyCallback_tracked seen w1 Ht) as (Hd&Ha&Ht');
        destruct (contextDestroyCallback w1) as [w2 l2]
    end. simpl in *. injection Hs as <- <-. rewrite Ha. done.
Qed.

Lemma run_tracked ops seen w w' t :
  run ops w = Some (w', t) -> tracked seen w ->
  deletesGenerated seen (events t) = true.
Proof.
  revert seen w t. induction ops as [|op ops IH]; intros seen w t; simpl.
  { by intros [= <- <-]. }
  destruct (step op w) as [[w1 l]|] eqn:Hs; [|done].
  destruct (run ops w1) as [[w2 t']|] eqn:Hr; [|done].
  intros [= <- <-] Ht. destruct (step_tracked _ _ _ _ _ Hs Ht) as [Hd Ht1].
  unfold events. simpl. rewrite deletesGenerated_app, Hd. simpl.
  by eapply IH.
Qed.

End Lifetimes.

(** X15.  Along any run from program start, every framebuffer deletion is
    of a framebuffer that was generated earlier in the run under the same
    context: the file never deletes a framebuffer under a context other
    than the one it was made in, nor one it has not made. *)
Theorem deleted_framebuffers_were_generated ops w t l1 l2 k fb :
  run ops World_init = Some (w, t) ->
  events t = l1 ++ GL k (DeleteFramebuffers fb) :: l2 ->
  GL k (GenFramebuffers fb) ∈ l1.
Proof.
  intros Hr Hev.
  assert (tracked [] World_init) as Ht.
  { split; [|by intros x ?%elem_of_nil]. intros p o x Hp.
    unfold World_init in Hp. simpl in Hp. by rewrite lookup_empty in Hp. }
  pose proof (run_tracked _ _ _ _ _ Hr Ht) as Hd. rewrite Hev in Hd.
  apply deletesGenerated_split in Hd as [Hin|Hin]; [by apply elem_of_nil in Hin|done].
Qed.

Lemma deleted_framebuffers_were_generated_witness :
  exists w t l1 l2,
    run destroy_then_teardown World_init = Some (w, t) /\
    events t = l1 ++ GL 1 (DeleteFramebuffers 5) :: l2 /\
    GL 1 (GenFramebuffers 5) ∈ l1.
Proof.
  assert ({wt | run destroy_then_teardown World_init = Some wt}) as [[w t] Hr].
  { eexists. vm_compute. reflexivity. }
  assert (events t =
    [RegisterContextDestroyCallback;
     GL 1 (GetIntegerv GL_READ_FRAMEBUFFER_BINDING 0);
     GL 1 (GetIntegerv GL_DRAW_FRAMEBUFFER_BINDING 0);
     GL 1 (GenFramebuffers 5);
     GL 1 (BindFramebuffer GL_FRAMEBUFFER 5);
     GL 1 (FramebufferTexture2D 7);
     GL 1 (CheckFramebufferStatus true);
     GL 1 (BindFramebuffer GL_READ_FRAMEBUFFER 0);
     GL 1 (BindFramebuffer GL_DRAW_FRAMEBUFFER 0);
     GL 1 (BindFramebuffer GL_FRAMEBUFFER 5)] ++
    GL 1 (DeleteFramebuffers 5) :: [GL 1 (DeleteFramebuffers 5)]) as Hev.
  { pose proof Hr as Hr'. vm_compute in Hr'. injection Hr' as _ <-. reflexivity. }
  eexists w, t, _, _. split; [exact Hr|]. split; [exact Hev|].
  exact (deleted_framebuffers_were_generated _ _ _ _ _ _ _ Hr Hev).
Defined.

(** ** What the callback leaves alone *)

(** X16.  The callback creates and destroys no object and writes nothing
    of an object but its map: the backup context, the depth buffer and the
    texture identifier of every object are as they were, and no entry
    appears in a map that was not there. *)
Theorem contextDestroyCallback_touches_only_maps w p :
  match heap w !! p with
  | Some o =>
      exists o',
        heap (contextDestroyCallback w).1 !! p = Some o' /\
        m_context o' = m_context o /\
        m_depthBuffer o' = m_depthBuffer o /\
        m_textureId o' = m_textureId o /\
        (forall x, x ∈ m_frameBuffers o' -> x ∈ m_frameBuffers o)
  | None => heap (contextDestroyCallback w).1 !! p = None
  end.
Proof.
  pose proof (contextDestroyCallback_heap w p) as Hh.
  destruct (heap w !! p) as [o|]; [|done].
  destruct Hh as (o'&Ho'&(?&?&?&?&_)). exists o'. done.
Qed.
